(** * cyoyu/logging: a shallow embedding of the logging package

    The package has three Go files: [config.go] (the [Level] enumeration and
    [Config]), [logging.go] (the package-level variables, [Initialize], the
    leveled log functions, [parseLabels], [zlog] and [HTTP]) and
    [middleware.go] (the gin middleware [RequestLogger]).

    Pure code is embedded as Rocq functions.  Code that calls collaborators
    (zap, the trace provider, the clock, the wrapped handler) is embedded in
    a small monad that records every collaborator call in a trace and
    carries how the computation ended: return, [os.Exit] or panic. *)

From Stdlib Require Import ZArith String Ascii Strings.Byte.
From stdpp Require Import gmap strings list pretty.

Set Default Proof Using "Type".

Open Scope Z_scope.

(** ** config.go *)

(** [type Level uint]: an unsigned machine integer.  The code only compares
    levels, so its width never matters and [N] holds every value. *)
Definition Level : Type := N.

Definition LevelFirst : Level := 0%N.
Definition LevelCritical : Level := 1%N.
Definition LevelError : Level := 2%N.
Definition LevelWarn : Level := 3%N.
Definition LevelInfo : Level := 4%N.
Definition LevelDebug : Level := 5%N.
Definition LevelLast : Level := 6%N.

Record Config : Type := mkConfig {
  ProjectID : string;
  ConfigLevel : Level;
  Development : bool;
  KeyRequestID : string;
  KeyUserID : string;
  KeyError : string;
  KeyScope : string
}.

(** ** Go values behind [interface{}] *)

(** Go's [int] on the 64-bit targets (amd64, arm64). *)
Definition intSize : Z := 64.

(** Two's-complement wrap-around of a conversion to a signed [w]-bit type. *)
Definition wrap (w : Z) (z : Z) : Z :=
  (z + 2 ^ (w - 1)) mod 2 ^ w - 2 ^ (w - 1).

(** [int(v)] *)
Definition to_int (z : Z) : Z := wrap intSize z.

Definition in_range (w : Z) (z : Z) : Prop :=
  - 2 ^ (w - 1) <= z < 2 ^ (w - 1).

(** The dynamic types that reach the [default] arm of the type switch in
    [parseLabels].  [OOpaque err dump] is a value of any further type:
    [err] is [Some m] when the type implements [error] and [Error()] returns
    [m]; [dump] is what [fmt] prints for it under [%+v]. *)
Inductive OtherValue : Type :=
| OInt8 (n : Z)
| OInt16 (n : Z)
| ONil
| OOpaque (err : option string) (dump : string).

(** A value of type [interface{}], by dynamic type: one constructor for each
    type the switch of [parseLabels] names, and [VOther] for the rest.  A
    pointer is [None] when nil. *)
Inductive Value : Type :=
| VString (s : string)
| VStringPtr (p : option string)
| VBytes (b : list byte)
| VBytesPtr (p : option (list byte))
| VInt (n : Z)
| VInt32 (n : Z)
| VInt64 (n : Z)
| VOther (o : OtherValue).

(** The integers a value carries fit its Go type. *)
Definition wf_value (v : Value) : Prop :=
  match v with
  | VInt n => in_range intSize n
  | VInt32 n => in_range 32 n
  | VInt64 n => in_range 64 n
  | VOther (OInt8 n) => in_range 8 n
  | VOther (OInt16 n) => in_range 16 n
  | _ => True
  end.

(** [val.(error)]: the builtin types have no methods, so only a value of a
    further type can be an error. *)
Definition as_error (v : Value) : option string :=
  match v with
  | VOther (OOpaque (Some m) _) => Some m
  | _ => None
  end.

(** [key.(string)] *)
Definition as_string (v : Value) : option string :=
  match v with
  | VString s => Some s
  | _ => None
  end.

(** [strconv.Itoa] *)
Definition Itoa (n : Z) : string := pretty n.

(** [string(b)] for [b []byte]: a Go string is its bytes. *)
Definition string_of_bytes (b : list byte) : string := string_of_list_byte b.

(** [fmt.Sprintf("%+v", v)] on the values of the [default] arm: [fmt] prints
    an integer of any width in base 10 and a nil interface as [<nil>]. *)
Definition Sprintf_plus_v (o : OtherValue) : string :=
  match o with
  | OInt8 n => Itoa n
  | OInt16 n => Itoa n
  | ONil => "<nil>"
  | OOpaque _ dump => dump
  end.

(** ** Fields *)

(** [runtime.Caller]'s four results. *)
Record CallerInfo : Type := mkCaller {
  callerPC : N;
  callerFile : string;
  callerLine : Z;
  callerOk : bool
}.

(** A request-scoped [context.Context]: the span context the trace provider
    finds in it (rendered ids) and the values stored under string keys. *)
Record Context : Type := mkContext {
  TraceID : string;
  SpanID : string;
  ctxValues : gmap string Value
}.

(** [http.Request], the parts the package reads or writes.  [Header] is Go's
    [map[string][]string], keyed by canonical header name. *)
Record Request : Type := mkRequest {
  Method : string;
  EscapedPath : string;
  Header : gmap string (list string);
  RemoteAddr : string;
  reqContext : Context
}.

Record Response : Type := mkResponse {
  StatusCode : Z
}.

(** [zapdriver.HTTPPayload] as [zapdriver.NewHTTP(req, res)] builds it, with
    the [Latency] the caller sets afterwards. *)
Record HTTPPayload : Type := mkPayload {
  payloadRequest : Request;
  payloadResponse : Response;
  Latency : string
}.

(** [zapcore.Field], one constructor per zapdriver constructor the package
    calls. *)
Inductive Field : Type :=
| Label (key value : string)
| SourceLocation (c : CallerInfo)
| TraceKey (trace projectName : string)
| SpanKey (spanId : string)
| TraceSampledKey (sampled : bool)
| zapdriver_HTTP (p : HTTPPayload).

(** [zapdriver.TraceContext] returns three fields. *)
Definition TraceContext (trace spanId : string) (sampled : bool)
    (projectName : string) : list Field :=
  [TraceKey trace projectName; SpanKey spanId; TraceSampledKey sampled].

(** A Go slice of fields; the nil slice is kept apart from an empty one. *)
Inductive FieldSlice : Type :=
| NilSlice
| MkSlice (l : list Field).

(** The elements of a slice, as [append(fields, s...)] and [range] see them. *)
Definition elems (s : FieldSlice) : list Field :=
  match s with
  | NilSlice => []
  | MkSlice l => l
  end.

(** ** logging.go: parseLabels *)

(** The body of the loop of [parseLabels] for one key and value: the fields
    it appends. *)
Definition labelPair (keyError : string) (key val : Value) : list Field :=
  match as_string key with
  | Some keyStr =>
      if (keyStr =? "error")%string || (keyStr =? keyError)%string then
        match as_error val with
        | Some msg => [Label keyError msg]
        | None => []
        end
      else
        match val with
        | VString v => [Label keyStr v]
        | VStringPtr (Some v) => [Label keyStr v]
        | VStringPtr None => []
        | VBytes v => [Label keyStr (string_of_bytes v)]
        | VBytesPtr (Some v) => [Label keyStr (string_of_bytes v)]
        | VBytesPtr None => []
        | VInt v => [Label keyStr (Itoa v)]
        | VInt32 v => [Label keyStr (Itoa (to_int v))]
        | VInt64 v => [Label keyStr (Itoa (to_int v))]
        | VOther v => [Label keyStr (Sprintf_plus_v v)]
        end
  | None => []
  end.

(** The loop [for i := 0; i < len(args); { ... i += 2 }]: [args] is the part
    of the slice from index [i] on.  It stops at the end of the slice, and
    breaks when [i == len(args)-1], that is when one element is left. *)
Fixpoint parseLabels_loop (keyError : string) (args : list Value)
    (fields : list Field) : list Field :=
  match args with
  | [] => fields
  | [_] => fields
  | key :: val :: rest =>
      parseLabels_loop keyError rest (fields ++ labelPair keyError key val)
  end.

Definition parseLabels (keyError : string) (args : list Value) : FieldSlice :=
  if (length args =? 0)%nat then NilSlice
  else MkSlice (parseLabels_loop keyError args []).

(** ** Effects *)

(** zap's levels, as far as the package logs at them. *)
Inductive ZapLevel : Type :=
| DebugLevel
| InfoLevel
| WarnLevel
| ErrorLevel
| FatalLevel.

(** One call of a collaborator. *)
Inductive Event : Type :=
| EvSprintf (format : string) (args : list Value)
| EvSpanContext
| EvCaller (skip : nat)
| EvCtxValue (key : string)
| EvLog (lvl : ZapLevel) (msg : string) (fields : list Field)
| EvSync
| EvNow
| EvNext.

(** How a computation ends: it returns, the process exits, or it panics. *)
Inductive Outcome (A : Type) : Type :=
| Ret (a : A)
| Exit (code : Z)
| Panic (msg : string).

Arguments Ret {A} a.
Arguments Exit {A} code.
Arguments Panic {A} msg.

(** A computation: its outcome and the collaborator calls it made, in order. *)
Record M (A : Type) : Type := mkM {
  outcome : Outcome A;
  trace : list Event
}.

Arguments mkM {A} outcome trace.
Arguments outcome {A} m.
Arguments trace {A} m.

#[global] Instance M_ret : MRet M := fun A a => mkM (Ret a) [].

#[global] Instance M_bind : MBind M := fun A B f m =>
  match outcome m with
  | Ret a => mkM (outcome (f a)) (trace m ++ trace (f a))
  | Exit code => mkM (Exit code) (trace m)
  | Panic msg => mkM (Panic msg) (trace m)
  end.

Definition emit (e : Event) : M unit := mkM (Ret tt) [e].
Definition os_Exit {A : Type} (code : Z) : M A := mkM (Exit code) [].
Definition panic {A : Type} (msg : string) : M A := mkM (Panic msg) [].

(** The Sink submissions of a trace. *)
Definition sink_calls (t : list Event) : list (ZapLevel * string * list Field) :=
  omap (fun e => match e with
                 | EvLog lvl msg fields => Some (lvl, msg, fields)
                 | _ => None
                 end) t.

(** The number of Sink flushes of a trace. *)
Definition sink_flushes (t : list Event) : nat :=
  length (omap (fun e => match e with EvSync => Some tt | _ => None end) t).

(** ** logging.go: package state *)

(** The logger [Initialize] builds: zap's development logger, or
    zapdriver's development or production logger. *)
Inductive Logger : Type :=
| ZapDevelopment
| DriverDevelopment
| DriverProduction.

(** The package-level variables; [zlogger] is [None] while it is nil. *)
Record Globals : Type := mkGlobals {
  logLevel : Level;
  projectID : string;
  keyRequestID : string;
  keyUserID : string;
  keyError : string;
  keyScope : string;
  keyRemoteIP : string;
  keyRoute : string;
  zlogger : option Logger
}.

(** The variables as the package declares them. *)
Definition initial : Globals :=
  {| logLevel := LevelDebug;
     projectID := "";
     keyRequestID := "request_id";
     keyUserID := "user_id";
     keyError := "err";
     keyScope := "scope";
     keyRemoteIP := "remote_ip";
     keyRoute := "route";
     zlogger := None |}.

Definition set_zlogger (z : option Logger) (g : Globals) : Globals :=
  {| logLevel := logLevel g;
     projectID := projectID g;
     keyRequestID := keyRequestID g;
     keyUserID := keyUserID g;
     keyError := keyError g;
     keyScope := keyScope g;
     keyRemoteIP := keyRemoteIP g;
     keyRoute := keyRoute g;
     zlogger := z |}.

Definition set_logLevel (l : Level) (g : Globals) : Globals :=
  {| logLevel := l;
     projectID := projectID g;
     keyRequestID := keyRequestID g;
     keyUserID := keyUserID g;
     keyError := keyError g;
     keyScope := keyScope g;
     keyRemoteIP := keyRemoteIP g;
     keyRoute := keyRoute g;
     zlogger := zlogger g |}.

(** The assignments of [Initialize] under [if c != nil]. *)
Definition configure (c : Config) (g : Globals) : Globals :=
  {| logLevel := ConfigLevel c;
     projectID := ProjectID c;
     keyRequestID := KeyRequestID c;
     keyUserID := KeyUserID c;
     keyError := KeyError c;
     keyScope := KeyScope c;
     keyRemoteIP := keyRemoteIP g;
     keyRoute := keyRoute g;
     zlogger := zlogger g |}.

(** The logger's methods.  On a nil [*zap.Logger] they dereference it and
    panic.  Otherwise the entry goes to the Sink; zap's [Fatal] then syncs
    the core and calls [os.Exit(1)]. *)
Definition zap_log (z : option Logger) (lvl : ZapLevel) (msg : string)
    (fields : list Field) : M unit :=
  match z with
  | None => panic "invalid memory address or nil pointer dereference"
  | Some _ =>
      emit (EvLog lvl msg fields);;
      match lvl with
      | FatalLevel => emit EvSync;; os_Exit 1
      | _ => mret tt
      end
  end.

(** [trace.SpanContextFromContext(ctx).TraceID().String()] *)
Definition SpanContext_TraceID (ctx : Context) : M string :=
  emit EvSpanContext;; mret (TraceID ctx).

(** [trace.SpanContextFromContext(ctx).SpanID().String()] *)
Definition SpanContext_SpanID (ctx : Context) : M string :=
  emit EvSpanContext;; mret (SpanID ctx).

(** [ctx.Value(key).(string)] for a key of type string. *)
Definition Value_string (ctx : Context) (key : string) : M (option string) :=
  emit (EvCtxValue key);; mret (ctxValues ctx !! key ≫= as_string).

(** ** net/textproto and strings, as far as the package calls them *)

Definition byte_in (lo hi : N) (c : ascii) : bool :=
  (lo <=? N_of_ascii c)%N && (N_of_ascii c <=? hi)%N.

Definition is_lower (c : ascii) : bool := byte_in 97 122 c.
Definition is_upper (c : ascii) : bool := byte_in 65 90 c.
Definition is_digit (c : ascii) : bool := byte_in 48 57 c.

(** [validHeaderFieldByte]: the token characters of RFC 7230. *)
Definition validHeaderFieldByte (c : ascii) : bool :=
  is_lower c || is_upper c || is_digit c
  || existsb (Ascii.eqb c) (list_ascii_of_string "!#$%&'*+-.^_`|~").

Fixpoint forall_bytes (p : ascii -> bool) (s : string) : bool :=
  match s with
  | EmptyString => true
  | String c rest => p c && forall_bytes p rest
  end.

(** The second loop of [canonicalMIMEHeaderKey]: upper case for the first
    letter and after each dash, lower case elsewhere. *)
Fixpoint canonical_loop (upper : bool) (s : string) : string :=
  match s with
  | EmptyString => EmptyString
  | String c rest =>
      let c := if upper && is_lower c then ascii_of_N (N_of_ascii c - 32)
               else if negb upper && is_upper c then ascii_of_N (N_of_ascii c + 32)
               else c in
      String c (canonical_loop (Ascii.eqb c "-") rest)
  end.

(** [textproto.CanonicalMIMEHeaderKey]: a key with a byte that is no token
    character is returned unchanged. *)
Definition CanonicalMIMEHeaderKey (s : string) : string :=
  if forall_bytes validHeaderFieldByte s then canonical_loop true s else s.

(** [req.Header.Get(key)]: the first value stored under the canonical key,
    or the empty string. *)
Definition Header_Get (h : gmap string (list string)) (key : string) : string :=
  match h !! CanonicalMIMEHeaderKey key with
  | Some (v :: _) => v
  | _ => ""
  end.

(** [req.Header.Add(key, value)]: appends to the values of the canonical
    key. *)
Definition Header_Add (h : gmap string (list string)) (key value : string)
    : gmap string (list string) :=
  let key := CanonicalMIMEHeaderKey key in
  <[key := default [] (h !! key) ++ [value]]> h.

Definition cons_head (c : ascii) (l : list string) : list string :=
  match l with
  | h :: t => String c h :: t
  | [] => [String c EmptyString]
  end.

(** [strings.Split(s, sep)] for a non-empty [sep], reading [s] from the
    left: [skip] counts the bytes of a matched separator still to pass. *)
Fixpoint Split_from (sep : string) (skip : nat) (s : string) : list string :=
  match s with
  | EmptyString => [EmptyString]
  | String c rest =>
      match skip with
      | S k => Split_from sep k rest
      | O =>
          if String.prefix sep s
          then EmptyString :: Split_from sep (String.length sep - 1) rest
          else cons_head c (Split_from sep 0 rest)
      end
  end.

(** [strings.Split].  The package only splits at [","] and [":"]; for the
    empty separator Go explodes the string, here into its bytes. *)
Definition strings_Split (s sep : string) : list string :=
  match sep with
  | EmptyString => (fun c => String c EmptyString) <$> list_ascii_of_string s
  | _ => Split_from sep 0 s
  end.

(** ** gin *)

(** [gin.Context], the parts the middleware touches: the request, the
    status the response writer holds, the matched route template.  [clock]
    is the wall clock [time.Now] reads, in nanoseconds. *)
Record GinContext : Type := mkGin {
  ginRequest : Request;
  WriterStatus : Z;
  FullPath : string;
  clock : Z
}.

Definition set_Header (h : gmap string (list string)) (c : GinContext) : GinContext :=
  {| ginRequest := {| Method := Method (ginRequest c);
                      EscapedPath := EscapedPath (ginRequest c);
                      Header := h;
                      RemoteAddr := RemoteAddr (ginRequest c);
                      reqContext := reqContext (ginRequest c) |};
     WriterStatus := WriterStatus c;
     FullPath := FullPath c;
     clock := clock c |}.

(** ** Fixtures: one concrete environment and request *)

(** [fmt.Sprintf] on a format without verbs and with no argument. *)
Definition fixture_Sprintf (format : string) (args : list Value) : string :=
  format.

Definition fixture_Caller (skip : nat) : CallerInfo :=
  {| callerPC := 4198400; callerFile := "main.go"; callerLine := 42;
     callerOk := true |}.

(** [Duration.String] on less than a microsecond. *)
Definition fixture_Duration (d : Z) : string := pretty d +:+ "ns".

Definition fixture_build (l : Logger) : option string := None.

(** A handler that answers 200 after 250ns. *)
Definition fixture_Next (c : GinContext) : Outcome GinContext :=
  Ret {| ginRequest := ginRequest c;
         WriterStatus := 200;
         FullPath := FullPath c;
         clock := clock c + 250 |}.

(** The package variables after a logger was built with the defaults. *)
Definition ready : Globals := set_zlogger (Some ZapDevelopment) initial.

Definition fixture_ctx : Context :=
  {| TraceID := "4bf92f3577b34da6a3ce929d0e0e4736";
     SpanID := "00f067aa0ba902b7";
     ctxValues := <["user_id" := VString "u1"]> ∅ |}.

Definition fixture_gin (path : string) : GinContext :=
  {| ginRequest := {| Method := "GET";
                      EscapedPath := path;
                      Header := <["X-Forwarded-For" := ["1.2.3.4, 5.6.7.8"]]> ∅;
                      RemoteAddr := "9.9.9.9:443";
                      reqContext := fixture_ctx |};
     WriterStatus := 0;
     FullPath := path;
     clock := 1000 |}.

(** A handler that panics, and an environment in which no logger can be
    built. *)
Definition fixture_Next_panics (c : GinContext) : Outcome GinContext :=
  Panic "handler failed".

Definition fixture_build_fails (l : Logger) : option string :=
  Some "cannot build the logger".

(** A request that arrives with a [True-Client-Ip] header of its own. *)
Definition fixture_gin_spoofed : GinContext :=
  {| ginRequest := {| Method := "GET";
                      EscapedPath := "/api";
                      Header := <["True-Client-Ip" := ["6.6.6.6"]]> ∅;
                      RemoteAddr := "9.9.9.9:443";
                      reqContext := fixture_ctx |};
     WriterStatus := 0;
     FullPath := "/api";
     clock := 1000 |}.

Section Pipeline.

(** What the environment decides: whether building a logger fails (and with
    which error), what [fmt.Sprintf] renders, what [runtime.Caller] finds on
    the stack, and how a [time.Duration] prints. *)
Variable build_error : Logger -> option string.
Variable Sprintf : string -> list Value -> string.
Variable runtime_Caller : nat -> CallerInfo.
Variable Duration_String : Z -> string.

(** [zlogger, err = ... Build(...)]: on failure the logger is nil. *)
Definition build (l : Logger) (g : Globals) : Outcome (option string) * Globals :=
  match build_error l with
  | Some err => (Ret (Some err), set_zlogger None g)
  | None => (Ret None, set_zlogger (Some l) g)
  end.

(** [Initialize]: the result is the returned error ([None] for nil) and the
    package variables afterwards.  With a nil [c] and a project id left by an
    earlier call, [c.Development] dereferences nil. *)
Definition Initialize (c : option Config) (g : Globals)
    : Outcome (option string) * Globals :=
  let g := match c with
           | Some c => configure c g
           | None => g
           end in
  if (projectID g =? "")%string then build ZapDevelopment g
  else
    match c with
    | None => (Panic "invalid memory address or nil pointer dereference", g)
    | Some c =>
        if Development c then build DriverDevelopment g
        else build DriverProduction g
    end.

(** [Finalize] *)
Definition Finalize (g : Globals) : M unit :=
  match zlogger g with
  | Some _ => emit EvSync
  | None => mret tt
  end.

(** The guard of [zlog]:
    [level <= LevelFirst || level >= LevelLast || level > logLevel]. *)
Definition filtered (level threshold : Level) : bool :=
  (level <=? LevelFirst)%N || (LevelLast <=? level)%N || (threshold <? level)%N.

(** The [switch level] of [zlog]. *)
Definition zap_level (level : Level) : ZapLevel :=
  if (level =? LevelInfo)%N then InfoLevel
  else if (level =? LevelError)%N then ErrorLevel
  else if (level =? LevelCritical)%N then FatalLevel
  else if (level =? LevelWarn)%N then WarnLevel
  else DebugLevel.

(** The correlation fields [zlog] and [HTTP] append after their first
    fields: the trace context when a project id is set, then the user id and
    the scope when the context holds them as strings. *)
Definition correlate (g : Globals) (ctx : Context) (requestID spanID : string)
    (fields : list Field) : M (list Field) :=
  let fields :=
    if negb (projectID g =? "")%string
    then fields ++ TraceContext requestID spanID true (projectID g)
    else fields in
  userID ← Value_string ctx (keyUserID g);
  let fields := match userID with
                | Some userID => fields ++ [Label (keyUserID g) userID]
                | None => fields
                end in
  scope ← Value_string ctx (keyScope g);
  let fields := match scope with
                | Some scope => fields ++ [Label (keyScope g) scope]
                | None => fields
                end in
  mret fields.

Definition zlog (g : Globals) (ctx : Context) (level : Level) (format : string)
    (args keysAndValues : list Value) : M unit :=
  if filtered level (logLevel g) then mret tt
  else
    msg ← (emit (EvSprintf format args);; mret (Sprintf format args));
    requestID ← SpanContext_TraceID ctx;
    spanID ← SpanContext_SpanID ctx;
    loc ← (emit (EvCaller 2);; mret (runtime_Caller 2));
    let fields := [Label (keyRequestID g) requestID; SourceLocation loc] in
    fields ← correlate g ctx requestID spanID fields;
    let fields := fields ++ elems (parseLabels (keyError g) keysAndValues) in
    zap_log (zlogger g) (zap_level level) msg fields.

Definition Critical g ctx format args := zlog g ctx LevelCritical format args [].
Definition Error g ctx format args := zlog g ctx LevelError format args [].
Definition Errorw g ctx msg keysAndValues := zlog g ctx LevelError msg [] keysAndValues.
Definition Warn g ctx format args := zlog g ctx LevelWarn format args [].
Definition Info g ctx format args := zlog g ctx LevelInfo format args [].
Definition Infow g ctx msg keysAndValues := zlog g ctx LevelInfo msg [] keysAndValues.
Definition Debug g ctx format args := zlog g ctx LevelDebug format args [].

(** [HTTP]: [latency] is the duration in nanoseconds. *)
Definition HTTP (g : Globals) (ctx : Context) (req : Request) (res : Response)
    (path : string) (latency : Z) : M unit :=
  requestID ← SpanContext_TraceID ctx;
  spanID ← SpanContext_SpanID ctx;
  let payload := {| payloadRequest := req;
                    payloadResponse := res;
                    Latency := Duration_String latency |} in
  let fields := [zapdriver_HTTP payload;
                 Label (keyRequestID g) requestID;
                 Label (keyRemoteIP g) (Header_Get (Header req) "true-client-ip");
                 Label (keyRoute g) path] in
  fields ← correlate g ctx requestID spanID fields;
  zap_log (zlogger g) InfoLevel "request log" fields.


(** ** middleware.go *)

(** [ctx.Next()]: the rest of the handler chain runs on the context and
    returns it changed, or ends the process, or panics. *)
Variable Next : GinContext -> Outcome GinContext.

(** The index expression [s[0]]. *)
Definition index0 (l : list string) : M string :=
  match l with
  | h :: _ => mret h
  | [] => panic "index out of range [0] with length 0"
  end.

(** The client address the middleware derives. *)
Definition remoteIP_of (req : Request) : M string :=
  let forwardChain := strings_Split (Header_Get (Header req) "X-Forwarded-For") "," in
  match forwardChain with
  | first :: _ =>
      if negb (first =? "")%string then mret first
      else index0 (strings_Split (RemoteAddr req) ":")
  | [] => index0 (strings_Split (RemoteAddr req) ":")
  end.

(** The set [RequestLogger] builds from [excludes] before it returns the
    handler. *)
Definition build_excludes (excludes : list string) : gmap string unit :=
  foldl (fun m s => <[s := tt]> m) ∅ excludes.

(** [RequestLogger(excludes)], applied to the context of one request. *)
Definition RequestLogger (excludes : list string) (g : Globals)
    (ctx : GinContext) : M GinContext :=
  let requestLogExcludes := build_excludes excludes in
  let url := EscapedPath (ginRequest ctx) in
  match requestLogExcludes !! url with
  | Some _ => mret ctx
  | None =>
      remoteIP ← remoteIP_of (ginRequest ctx);
      let ctx := set_Header (Header_Add (Header (ginRequest ctx)) "x-forwarded-for" remoteIP) ctx in
      let ctx := set_Header (Header_Add (Header (ginRequest ctx)) "true-client-ip" remoteIP) ctx in
      start ← (emit EvNow;; mret (clock ctx));
      ctx ← (emit EvNext;; mkM (Next ctx) []);
      duration ← (emit EvNow;; mret (clock ctx - start));
      HTTP g (reqContext (ginRequest ctx)) (ginRequest ctx)
        {| StatusCode := WriterStatus ctx |} (FullPath ctx) duration;;
      mret ctx
  end.

(** ** gin's dispatcher *)

(** Whether a run called [ctx.Next]. *)
Definition called_Next (t : list Event) : bool :=
  existsb (fun e => match e with EvNext => true | _ => false end) t.

(** What gin did for one request: the run of the first handler of the
    chain, and the outcome of the remaining handlers when it was the
    dispatcher, not the first handler, that ran them. *)
Record Served : Type := mkServed {
  middleware_run : M GinContext;
  dispatched : option (Outcome GinContext)
}.

(** gin serves a request by calling [Context.Next] with the index reset:

      c.index++
      for c.index < int8(len(c.handlers)) {
          c.handlers[c.index](c)
          c.index++
      }

    for the chain whose first handler is [middleware] and whose remaining
    handlers are what [Next] runs.  The index moves only in [Context.Next]
    (and in [Abort], which the middleware never calls).  A first handler
    that called [ctx.Next] left the index past the chain, so the loop ends;
    one that returned without it left the index at 0, so the loop goes on
    to the remaining handlers, on the context as the first handler left
    it.  A panic or an exit of the first handler ends the loop. *)
Definition gin_serve (middleware : GinContext -> M GinContext)
    (ctx : GinContext) : Served :=
  let r := middleware ctx in
  match outcome r with
  | Ret ctx =>
      if called_Next (trace r) then mkServed r None
      else mkServed r (Some (Next ctx))
  | _ => mkServed r None
  end.

(** ** Derived descriptions used in the statements *)

(** The pure part of [correlate]: the fields it returns. *)
Definition correlate_fields (g : Globals) (ctx : Context)
    (requestID spanID : string) (fields : list Field) : list Field :=
  let fields :=
    if negb (projectID g =? "")%string
    then fields ++ TraceContext requestID spanID true (projectID g)
    else fields in
  let fields := match ctxValues ctx !! keyUserID g ≫= as_string with
                | Some userID => fields ++ [Label (keyUserID g) userID]
                | None => fields
                end in
  match ctxValues ctx !! keyScope g ≫= as_string with
  | Some scope => fields ++ [Label (keyScope g) scope]
  | None => fields
  end.

(** The fields of the record [zlog] submits. *)
Definition zlog_fields (g : Globals) (ctx : Context) (keysAndValues : list Value)
    : list Field :=
  correlate_fields g ctx (TraceID ctx) (SpanID ctx)
    [Label (keyRequestID g) (TraceID ctx); SourceLocation (runtime_Caller 2)]
  ++ elems (parseLabels (keyError g) keysAndValues).

(** What [zlog] does before it calls the logger. *)
Definition zlog_prelude (g : Globals) (format : string) (args : list Value)
    : list Event :=
  [EvSprintf format args; EvSpanContext; EvSpanContext; EvCaller 2;
   EvCtxValue (keyUserID g); EvCtxValue (keyScope g)].

(** The fields of the record [HTTP] submits. *)
Definition HTTP_fields (g : Globals) (ctx : Context) (req : Request)
    (res : Response) (path : string) (latency : Z) : list Field :=
  correlate_fields g ctx (TraceID ctx) (SpanID ctx)
    [zapdriver_HTTP {| payloadRequest := req;
                       payloadResponse := res;
                       Latency := Duration_String latency |};
     Label (keyRequestID g) (TraceID ctx);
     Label (keyRemoteIP g) (Header_Get (Header req) "true-client-ip");
     Label (keyRoute g) path].

(** The context the middleware hands to the wrapped handler: the request
    with the derived address added under both headers. *)
Definition inject_client_ip (remoteIP : string) (ctx : GinContext) : GinContext :=
  set_Header
    (Header_Add (Header_Add (Header (ginRequest ctx)) "x-forwarded-for" remoteIP)
       "true-client-ip" remoteIP)
    ctx.

(** The encoding of a value under a key that is not the error key, as the
    specification words it: strings unchanged, a present optional string
    by its value and an absent one dropped, byte sequences decoded, signed
    integers in base 10, and every other type as one field that holds a
    generic dump. *)
Definition encodes_as_claimed (k : string) (v : Value) (out : list Field) : Prop :=
  match v with
  | VString s => out = [Label k s]
  | VStringPtr (Some s) => out = [Label k s]
  | VStringPtr None => out = []
  | VBytes b => out = [Label k (string_of_bytes b)]
  | VInt n | VInt32 n | VInt64 n
  | VOther (OInt8 n) | VOther (OInt16 n) => out = [Label k (Itoa n)]
  | VBytesPtr _ | VOther _ => exists dump, out = [Label k dump]
  end.

(** The same table with the pointer to a byte sequence treated like the
    pointer to a string. *)
Definition encoding (k : string) (v : Value) : list Field :=
  match v with
  | VString s => [Label k s]
  | VStringPtr (Some s) => [Label k s]
  | VStringPtr None => []
  | VBytes b => [Label k (string_of_bytes b)]
  | VBytesPtr (Some b) => [Label k (string_of_bytes b)]
  | VBytesPtr None => []
  | VInt n | VInt32 n | VInt64 n
  | VOther (OInt8 n) | VOther (OInt16 n) => [Label k (Itoa n)]
  | VOther ONil => [Label k "<nil>"]
  | VOther (OOpaque _ dump) => [Label k dump]
  end.

(** The part of [host:port] before its last colon; [None] without a colon. *)
Fixpoint before_last_colon (s : string) : option string :=
  match s with
  | EmptyString => None
  | String c rest =>
      match before_last_colon rest with
      | Some h => Some (String c h)
      | None => if Ascii.eqb c ":" then Some EmptyString else None
      end
  end.

(** The remote address with its port stripped, as the specification words
    the fallback of the middleware. *)
Definition strip_port (addr : string) : string :=
  default addr (before_last_colon addr).

Fixpoint no_colon (s : string) : bool :=
  match s with
  | EmptyString => true
  | String c rest => negb (Ascii.eqb c ":") && no_colon rest
  end.

(** A request over IPv6 with no [X-Forwarded-For] header: Go's server sets
    [RemoteAddr] to the bracketed address and the port. *)
Definition ipv6_request : Request :=
  {| Method := "GET";
     EscapedPath := "/";
     Header := ∅;
     RemoteAddr := "[::1]:8080";
     reqContext := {| TraceID := "00000000000000000000000000000000";
                      SpanID := "0000000000000000";
                      ctxValues := ∅ |} |}.

(** The text of [s] before the first byte [c]; all of [s] without one. *)
Fixpoint take_until (c : ascii) (s : string) : string :=
  match s with
  | EmptyString => EmptyString
  | String a rest =>
      if Ascii.eqb a c then EmptyString else String a (take_until c rest)
  end.

(** The logger [Initialize] tries to build for a configuration. *)
Definition logger_for (c : Config) : Logger :=
  if (ProjectID c =? "")%string then ZapDevelopment
  else if Development c then DriverDevelopment
  else DriverProduction.

Definition is_Label (f : Field) : bool :=
  match f with
  | Label _ _ => true
  | _ => false
  end.

(** * Properties *)

(** The lemmas on pure code do not depend on the environment. *)
Ltac clear_environment :=
  clear build_error Sprintf runtime_Caller Duration_String Next.

(** ** The severity filter *)

Lemma filtered_false (level threshold : Level) :
  filtered level threshold = false <->
  (LevelFirst < level < LevelLast /\ level <= threshold)%N.
Proof.
  unfold filtered. rewrite !orb_false_iff, !N.leb_gt, N.ltb_ge. tauto.
Qed.

Lemma filtered_true (level threshold : Level) :
  filtered level threshold = true <->
  ~ (LevelFirst < level < LevelLast /\ level <= threshold)%N.
Proof.
  rewrite <- filtered_false. destruct (filtered level threshold); split; congruence.
Qed.

Lemma filtered_outside (level threshold : Level) :
  (level <= LevelFirst \/ LevelLast <= level)%N -> filtered level threshold = true.
Proof.
  intros H. apply filtered_true. intros [[H1 H2] _]. lia.
Qed.

Lemma correlate_run g ctx requestID spanID fields :
  correlate g ctx requestID spanID fields
  = mkM (Ret (correlate_fields g ctx requestID spanID fields))
        [EvCtxValue (keyUserID g); EvCtxValue (keyScope g)].
Proof. reflexivity. Qed.

Lemma zlog_skip g ctx level format args kv :
  filtered level (logLevel g) = true ->
  zlog g ctx level format args kv = mkM (Ret tt) [].
Proof. unfold zlog. intros ->. reflexivity. Qed.

Lemma zlog_run g lg ctx level format args kv :
  filtered level (logLevel g) = false ->
  zlogger g = Some lg ->
  zlog g ctx level format args kv
  = mkM (match zap_level level with FatalLevel => Exit 1 | _ => Ret tt end)
        (zlog_prelude g format args
         ++ EvLog (zap_level level) (Sprintf format args) (zlog_fields g ctx kv)
         :: match zap_level level with FatalLevel => [EvSync] | _ => [] end).
Proof.
  unfold zlog. intros -> Hz. rewrite Hz.
  destruct (zap_level level); reflexivity.
Qed.

Lemma zlog_nil_logger g ctx level format args kv :
  filtered level (logLevel g) = false ->
  zlogger g = None ->
  sink_calls (trace (zlog g ctx level format args kv)) = [].
Proof. unfold zlog. intros -> Hz. rewrite Hz. reflexivity. Qed.

Lemma sink_calls_zlog_prelude g format args rest :
  sink_calls (zlog_prelude g format args ++ rest) = sink_calls rest.
Proof. reflexivity. Qed.

Lemma sink_flushes_zlog_prelude g format args rest :
  sink_flushes (zlog_prelude g format args ++ rest) = sink_flushes rest.
Proof. reflexivity. Qed.

Lemma zlog_run_calls g lg ctx level format args kv :
  filtered level (logLevel g) = false ->
  zlogger g = Some lg ->
  sink_calls (trace (zlog g ctx level format args kv))
  = [(zap_level level, Sprintf format args, zlog_fields g ctx kv)].
Proof.
  intros Hf Hz. rewrite (zlog_run g lg) by assumption.
  cbn [trace]. rewrite sink_calls_zlog_prelude.
  destruct (zap_level level); reflexivity.
Qed.

(** C1.  With the logger built, a call of [zlog] at level [level] under the
    threshold [logLevel g] submits a record (exactly one) if and only if
    [LevelFirst < level < LevelLast] and [level <= logLevel g]; otherwise it
    does nothing at all; and at or outside the sentinels it does nothing
    whatever the package variables hold. *)
Theorem zlog_emits_iff g lg ctx level format args kv :
  zlogger g = Some lg ->
  let r := zlog g ctx level format args kv in
  (length (sink_calls (trace r)) = 1%nat
   <-> (LevelFirst < level < LevelLast /\ level <= logLevel g)%N)
  /\ (~ (LevelFirst < level < LevelLast /\ level <= logLevel g)%N ->
      sink_calls (trace r) = [])
  /\ ((level <= LevelFirst \/ LevelLast <= level)%N ->
      forall g', sink_calls (trace (zlog g' ctx level format args kv)) = []).
Proof.
  intros Hz r. subst r. split; [split|split].
  - intros Hlen. apply filtered_false.
    destruct (filtered level (logLevel g)) eqn:Hf; [|reflexivity].
    rewrite zlog_skip in Hlen by assumption. discriminate Hlen.
  - intros Hc. apply filtered_false in Hc.
    rewrite (zlog_run_calls g lg) by assumption. reflexivity.
  - intros Hn. apply filtered_true in Hn. rewrite zlog_skip by assumption.
    reflexivity.
  - intros Hout g'. rewrite zlog_skip; [reflexivity|].
    apply filtered_outside, Hout.
Qed.

(** C7.  When the level is not emitted under the threshold, [zlog] returns
    at once: its trace is empty, so there is no Sink submission, no read of
    the trace provider, no message formatting and no source-location
    lookup, and the call returns normally. *)
Theorem zlog_filtered_does_nothing g ctx level format args kv :
  ~ (LevelFirst < level < LevelLast /\ level <= logLevel g)%N ->
  let r := zlog g ctx level format args kv in
  trace r = [] /\ outcome r = Ret tt /\ sink_calls (trace r) = [].
Proof.
  intros Hn r. subst r. apply filtered_true in Hn.
  rewrite zlog_skip by assumption. repeat split.
Qed.

Lemma zap_level_Critical : zap_level LevelCritical = FatalLevel.
Proof. reflexivity. Qed.

Lemma filtered_Critical (threshold : Level) :
  filtered LevelCritical threshold = false <-> (LevelCritical <= threshold)%N.
Proof.
  rewrite filtered_false. unfold LevelFirst, LevelCritical, LevelLast. lia.
Qed.

(** C2, amended.  With the logger built and a threshold of [LevelCritical]
    or above, [Critical] does the correlation work, submits one record at
    zap's Fatal level, after which the Sink is flushed once and the process
    exits with status 1.  Under the threshold [LevelFirst] it submits
    nothing, flushes nothing and returns. *)
Theorem Critical_fatal_when_enabled g lg ctx format args :
  zlogger g = Some lg ->
  let r := Critical g ctx format args in
  ((LevelCritical <= logLevel g)%N ->
     trace r = zlog_prelude g format args
               ++ [EvLog FatalLevel (Sprintf format args) (zlog_fields g ctx []);
                   EvSync]
     /\ sink_calls (trace r) = [(FatalLevel, Sprintf format args, zlog_fields g ctx [])]
     /\ sink_flushes (trace r) = 1%nat
     /\ outcome r = Exit 1)
  /\ (logLevel g = LevelFirst ->
      trace r = [] /\ sink_flushes (trace r) = 0%nat /\ outcome r = Ret tt).
Proof.
  intros Hz r. subst r. unfold Critical. split.
  - intros Hle. apply filtered_Critical in Hle.
    rewrite (zlog_run g lg) by assumption. rewrite zap_level_Critical.
    cbn [trace outcome]. rewrite sink_calls_zlog_prelude, sink_flushes_zlog_prelude.
    repeat split.
  - intros HT. rewrite zlog_skip; [repeat split|].
    rewrite HT. reflexivity.
Qed.

Lemma build_keeps l g :
  let g' := (build l g).2 in
  logLevel g' = logLevel g /\ projectID g' = projectID g
  /\ keyRequestID g' = keyRequestID g /\ keyUserID g' = keyUserID g
  /\ keyError g' = keyError g /\ keyScope g' = keyScope g.
Proof. unfold build. destruct (build_error l); cbn; repeat split. Qed.

Lemma build_returns l g : exists e, (build l g).1 = Ret e.
Proof. unfold build. destruct (build_error l); cbn; eauto. Qed.

Lemma Initialize_Some c g :
  exists l, Initialize (Some c) g = build l (configure c g).
Proof.
  unfold Initialize.
  destruct (projectID (configure c g) =? "")%string; [eauto|].
  destruct (Development c); eauto.
Qed.

(** C3.  [Initialize] with a non-nil [c] returns (it does not panic) and
    leaves the threshold, the project id and the four key names equal to
    [c]'s fields, whatever they held before and also when a field of [c] is
    zero.  When [c]'s level is the zero value, the threshold is
    [LevelFirst] and no later call of [zlog], at any level, does anything;
    [Critical] in particular returns without a record. *)
Theorem Initialize_replaces c g :
  let r := Initialize (Some c) g in
  let g' := r.2 in
  (exists e, r.1 = Ret e)
  /\ logLevel g' = ConfigLevel c
  /\ projectID g' = ProjectID c
  /\ keyRequestID g' = KeyRequestID c
  /\ keyUserID g' = KeyUserID c
  /\ keyError g' = KeyError c
  /\ keyScope g' = KeyScope c
  /\ (ConfigLevel c = 0%N ->
      logLevel g' = LevelFirst
      /\ (forall ctx level format args kv,
            zlog g' ctx level format args kv = mkM (Ret tt) [])
      /\ (forall ctx format args,
            Critical g' ctx format args = mkM (Ret tt) [])).
Proof.
  intros r g'. subst g' r.
  destruct (Initialize_Some c g) as [l ->].
  destruct (build_keeps l (configure c g)) as (HL & HP & HR & HU & HE & HS).
  split; [apply build_returns|].
  rewrite HL, HP, HR, HU, HE, HS. cbn [configure logLevel projectID keyRequestID
    keyUserID keyError keyScope].
  repeat split; try assumption.
  - intros. apply zlog_skip. rewrite HL. cbn [configure logLevel].
    rewrite H. apply filtered_true. unfold LevelFirst. lia.
  - intros. apply zlog_skip. rewrite HL. cbn [configure logLevel].
    rewrite H. reflexivity.
Qed.

(** X4.  [Initialize(nil)] while a project id is set (left by an earlier call):
    the branch [else if c.Development] dereferences the nil [c]. *)
Lemma Initialize_nil_panics g :
  projectID g <> "" ->
  Initialize None g
  = (Panic "invalid memory address or nil pointer dereference", g).
Proof.
  intros Hne. unfold Initialize. apply String.eqb_neq in Hne. rewrite Hne.
  reflexivity.
Qed.

(** ** parseLabels *)

Lemma pairs_ind {A : Type} (P : list A -> Prop) :
  P [] -> (forall x, P [x]) -> (forall x y l, P l -> P (x :: y :: l)) ->
  forall l, P l.
Proof.
  intros H0 H1 H2.
  assert (H : forall l, P l /\ forall x, P (x :: l)).
  { induction l as [|y l [IH1 IH2]]; split; auto. }
  intros l. apply H.
Qed.

Lemma parseLabels_loop_acc keyError args acc :
  parseLabels_loop keyError args acc = acc ++ parseLabels_loop keyError args [].
Proof.
  revert acc. induction args as [|x|key val rest IH] using pairs_ind; intros acc.
  - cbn. rewrite app_nil_r. reflexivity.
  - cbn. rewrite app_nil_r. reflexivity.
  - cbn [parseLabels_loop]. rewrite IH, (IH ([] ++ _)). cbn [app].
    rewrite app_assoc. reflexivity.
Qed.

Lemma parseLabels_loop_app keyError pre post acc :
  Nat.Even (length pre) ->
  parseLabels_loop keyError (pre ++ post) acc
  = parseLabels_loop keyError post (parseLabels_loop keyError pre acc).
Proof.
  revert acc. induction pre as [|x|key val rest IH] using pairs_ind;
    intros acc Hev.
  - reflexivity.
  - destruct Hev as [n Hn]. cbn in Hn. lia.
  - cbn [app parseLabels_loop]. apply IH.
    destruct Hev as [n Hn]. cbn in Hn. exists (n - 1)%nat. lia.
Qed.

Lemma elems_parseLabels keyError args :
  elems (parseLabels keyError args) = parseLabels_loop keyError args [].
Proof. destruct args; reflexivity. Qed.

(** The fields of a key and value that sit at an even index: what the
    pairs before contribute, then [labelPair], then what the rest does. *)
Lemma parseLabels_pair keyError pre key val post :
  Nat.Even (length pre) ->
  elems (parseLabels keyError (pre ++ key :: val :: post))
  = elems (parseLabels keyError pre) ++ labelPair keyError key val
    ++ elems (parseLabels keyError post).
Proof.
  intros Hev. rewrite !elems_parseLabels, parseLabels_loop_app by assumption.
  cbn [parseLabels_loop]. rewrite parseLabels_loop_acc, app_assoc. reflexivity.
Qed.

(** C4.  For arguments of odd length, an even-length [args] followed by one
    more element [k], [parseLabels] yields the fields it yields for [args]:
    the unpaired last element is dropped; when [args] is not empty the two
    slices are equal.  For one element the loop appends nothing, and both
    that result and the result for no argument are empty field
    sequences. *)
Theorem parseLabels_odd_drops_last keyError args k :
  Nat.Even (length args) ->
  elems (parseLabels keyError (args ++ [k])) = elems (parseLabels keyError args)
  /\ (args <> [] ->
      parseLabels keyError (args ++ [k]) = parseLabels keyError args)
  /\ elems (parseLabels keyError [k]) = []
  /\ elems (parseLabels keyError []) = [].
Proof.
  intros Hev.
  assert (H : parseLabels_loop keyError (args ++ [k]) []
              = parseLabels_loop keyError args []).
  { rewrite parseLabels_loop_app by assumption. reflexivity. }
  split; [|split; [|split; reflexivity]].
  - rewrite !elems_parseLabels. exact H.
  - intros Hne. destruct args as [|a args]; [congruence|].
    unfold parseLabels. cbn [app length Nat.eqb]. cbn [app] in H.
    rewrite H. reflexivity.
Qed.

Lemma labelPair_error_key keyError k v :
  k = "error" \/ k = keyError ->
  labelPair keyError (VString k) v
  = match as_error v with
    | Some msg => [Label keyError msg]
    | None => []
    end.
Proof.
  intros Hk. unfold labelPair. cbn [as_string].
  assert (Hb : (k =? "error")%string || (k =? keyError)%string = true).
  { apply orb_true_iff. rewrite !String.eqb_eq. exact Hk. }
  rewrite Hb. reflexivity.
Qed.

(** C5.  A pair whose key is the string ["error"] or the configured
    error-key name contributes, at its place in the output, exactly one
    field [Label keyError msg] when the value is an error whose [Error()]
    is [msg], and no field at all when the value is not an error. *)
Theorem parseLabels_error_key keyError pre k v post :
  Nat.Even (length pre) ->
  k = "error" \/ k = keyError ->
  elems (parseLabels keyError (pre ++ VString k :: v :: post))
  = elems (parseLabels keyError pre)
    ++ match as_error v with
       | Some msg => [Label keyError msg]
       | None => []
       end
    ++ elems (parseLabels keyError post).
Proof.
  intros Hev Hk. rewrite parseLabels_pair by assumption.
  rewrite labelPair_error_key by assumption. reflexivity.
Qed.

Lemma wrap_in_range w z : 0 < w -> in_range w z -> wrap w z = z.
Proof.
  unfold in_range, wrap. intros Hw Hz.
  assert (H2 : 2 ^ w = 2 * 2 ^ (w - 1)).
  { rewrite <- Z.pow_succ_r by lia. f_equal. lia. }
  rewrite Z.mod_small by lia. lia.
Qed.

Lemma in_range_mono w w' z : 0 < w <= w' -> in_range w z -> in_range w' z.
Proof.
  unfold in_range. intros Hw Hz.
  assert (2 ^ (w - 1) <= 2 ^ (w' - 1)) by (apply Z.pow_le_mono_r; lia).
  lia.
Qed.

Lemma to_int_in_range w z : 0 < w <= intSize -> in_range w z -> to_int z = z.
Proof.
  intros Hw Hz. unfold to_int. apply wrap_in_range; [reflexivity|].
  apply (in_range_mono w); assumption.
Qed.

Lemma labelPair_other_key keyError k v :
  k <> "error" -> k <> keyError -> wf_value v ->
  labelPair keyError (VString k) v = encoding k v.
Proof.
  intros H1 H2 Hwf. unfold labelPair. cbn [as_string].
  apply String.eqb_neq in H1, H2. rewrite H1, H2. cbn [orb].
  destruct v as [s|[s|]|b|[b|]|n|n|n|[n|n| |e d]]; try reflexivity; cbn in Hwf.
  - cbn [encoding]. rewrite (to_int_in_range 32) by (unfold intSize; auto with zarith).
    reflexivity.
  - cbn [encoding]. rewrite (to_int_in_range 64) by (unfold intSize; auto with zarith).
    reflexivity.
Qed.

(** C6, amended.  A pair whose key is a string other than ["error"] and the
    configured error-key name contributes, at its place in the output, the
    fields of [encoding]: a string unchanged; a non-nil pointer to a string
    or to a byte sequence by what it points to, and a nil one nothing; a
    byte sequence decoded; an [int], [int32] or [int64] in base 10; every
    other type by its [%+v] rendering, which for [int8] and [int16] is base
    10 as well. *)
Theorem parseLabels_other_key keyError pre k v post :
  Nat.Even (length pre) ->
  k <> "error" -> k <> keyError -> wf_value v ->
  elems (parseLabels keyError (pre ++ VString k :: v :: post))
  = elems (parseLabels keyError pre) ++ encoding k v
    ++ elems (parseLabels keyError post).
Proof.
  intros Hev H1 H2 Hwf. rewrite parseLabels_pair by assumption.
  rewrite labelPair_other_key by assumption. reflexivity.
Qed.

Lemma labelPair_non_string_key keyError key val :
  as_string key = None -> labelPair keyError key val = [].
Proof. unfold labelPair. intros ->. reflexivity. Qed.

(** ** The middleware *)

Lemma excludes_fold (l : list string) (m : gmap string unit) (s : string) :
  foldl (fun m s => <[s := tt]> m) m l !! s = Some tt <-> s ∈ l \/ m !! s = Some tt.
Proof.
  clear_environment.
  revert m. induction l as [|a l IH]; intros m; cbn [foldl].
  - rewrite elem_of_nil. tauto.
  - rewrite IH, elem_of_cons. destruct (decide (a = s)) as [->|Hne].
    + rewrite lookup_insert_eq. tauto.
    + rewrite lookup_insert_ne by assumption. split; [tauto|].
      intros [[Heq|Hin]|Hm]; [congruence|tauto|tauto].
Qed.

Lemma build_excludes_lookup (excludes : list string) (s : string) :
  build_excludes excludes !! s = Some tt <-> s ∈ excludes.
Proof.
  clear_environment.
  unfold build_excludes. rewrite excludes_fold, lookup_empty.
  split; [intros [H|H]; [exact H|discriminate H]|tauto].
Qed.

Lemma build_excludes_miss (excludes : list string) (s : string) :
  s ∉ excludes -> build_excludes excludes !! s = None.
Proof.
  intros Hn. destruct (build_excludes excludes !! s) as [[]|] eqn:E; [|reflexivity].
  apply build_excludes_lookup in E. contradiction.
Qed.

(** One call of the handler [RequestLogger] built, for a request whose
    escaped path is a member of [excludes]: it returns at once with the
    context as it received it.  The trace is empty (it does not call
    [ctx.Next], does not read the clock, submits nothing to the Sink) and
    the request, its headers included, is unchanged. *)
Theorem RequestLogger_excluded excludes g ctx :
  EscapedPath (ginRequest ctx) ∈ excludes ->
  let r := RequestLogger excludes g ctx in
  outcome r = Ret ctx /\ trace r = [] /\ sink_calls (trace r) = [].
Proof.
  intros Hin r. subst r. unfold RequestLogger.
  apply build_excludes_lookup in Hin. rewrite Hin. repeat split.
Qed.

Lemma Split_from_nonempty sep skip s : Split_from sep skip s <> [].
Proof.
  revert skip. induction s as [|c s IH]; intros skip; cbn [Split_from].
  - discriminate.
  - destruct skip; [|apply IH].
    destruct (String.prefix sep (String c s)); [discriminate|].
    unfold cons_head. destruct (Split_from sep 0 s); discriminate.
Qed.

Lemma index0_Split_colon s :
  exists h, index0 (strings_Split s ":") = mkM (Ret h) [].
Proof.
  cbn [strings_Split].
  destruct (Split_from ":" 0 s) as [|h t] eqn:E.
  - exfalso. exact (Split_from_nonempty _ _ _ E).
  - exists h. reflexivity.
Qed.

(** The derivation of the client address never panics and calls no
    collaborator. *)
Lemma remoteIP_of_returns req :
  exists remoteIP, remoteIP_of req = mkM (Ret remoteIP) [].
Proof.
  unfold remoteIP_of.
  destruct (strings_Split (Header_Get (Header req) "X-Forwarded-For") ",")
    as [|first rest]; [apply index0_Split_colon|].
  destruct (first =? "")%string; cbn [negb]; [apply index0_Split_colon|].
  exists first. reflexivity.
Qed.

(** X1.  With a non-empty first component in [X-Forwarded-For], that component
    is the derived address. *)
Lemma remoteIP_of_forwarded req first rest :
  strings_Split (Header_Get (Header req) "X-Forwarded-For") "," = first :: rest ->
  first <> "" ->
  remoteIP_of req = mkM (Ret first) [].
Proof.
  intros HS Hne. unfold remoteIP_of. rewrite HS.
  apply String.eqb_neq in Hne. rewrite Hne. reflexivity.
Qed.

Lemma Split_from_colon_host host rest :
  no_colon host = true ->
  exists tl, Split_from ":" 0 (host ++ String ":" rest) = host :: tl.
Proof.
  induction host as [|c host IH]; intros Hnc.
  - change ("" ++ String ":" rest)%string with (String ":" rest).
    cbn. destruct rest; cbn; eauto.
  - cbn in Hnc. apply andb_true_iff in Hnc as [Hc Hnc].
    destruct (IH Hnc) as [tl Htl].
    change (String c host ++ String ":" rest)%string
      with (String c (host ++ String ":" rest)).
    cbn [Split_from String.prefix].
    destruct (ascii_dec ":" c) as [<-|Hne]; [discriminate Hc|].
    rewrite Htl. cbn. eauto.
Qed.

(** X2.  Without [X-Forwarded-For] (or with an empty first component), a remote
    address [host:port] whose host holds no colon yields [host]. *)
Lemma remoteIP_of_host_port req host port :
  Header_Get (Header req) "X-Forwarded-For" = "" ->
  RemoteAddr req = (host ++ String ":" port)%string ->
  no_colon host = true ->
  remoteIP_of req = mkM (Ret host) [].
Proof.
  intros HX HR Hnc. unfold remoteIP_of. rewrite HX, HR. cbn.
  destruct (Split_from_colon_host host port Hnc) as [tl ->]. reflexivity.
Qed.

(** Under [inject_client_ip] the derived address is the last value under
    both headers. *)
Lemma inject_client_ip_headers remoteIP ctx :
  let h := Header (ginRequest ctx) in
  let h' := Header (ginRequest (inject_client_ip remoteIP ctx)) in
  h' !! "X-Forwarded-For" = Some (default [] (h !! "X-Forwarded-For") ++ [remoteIP])
  /\ h' !! "True-Client-Ip" = Some (default [] (h !! "True-Client-Ip") ++ [remoteIP]).
Proof.
  cbn. unfold Header_Add.
  change (CanonicalMIMEHeaderKey "x-forwarded-for") with "X-Forwarded-For".
  change (CanonicalMIMEHeaderKey "true-client-ip") with "True-Client-Ip".
  split.
  - rewrite lookup_insert_ne by discriminate. rewrite lookup_insert_eq. reflexivity.
  - rewrite lookup_insert_eq. rewrite lookup_insert_ne by discriminate. reflexivity.
Qed.

Lemma RequestLogger_run excludes g lg ctx remoteIP ctx' :
  zlogger g = Some lg ->
  EscapedPath (ginRequest ctx) ∉ excludes ->
  remoteIP_of (ginRequest ctx) = mkM (Ret remoteIP) [] ->
  Next (inject_client_ip remoteIP ctx) = Ret ctx' ->
  RequestLogger excludes g ctx
  = mkM (Ret ctx')
      [EvNow; EvNext; EvNow; EvSpanContext; EvSpanContext;
       EvCtxValue (keyUserID g); EvCtxValue (keyScope g);
       EvLog InfoLevel "request log"
         (HTTP_fields g (reqContext (ginRequest ctx')) (ginRequest ctx')
            {| StatusCode := WriterStatus ctx' |} (FullPath ctx')
            (clock ctx' - clock ctx))].
Proof.
  intros Hz Hex Hip HN. unfold RequestLogger.
  rewrite build_excludes_miss by assumption. rewrite Hip.
  unfold mbind, M_bind. cbn [outcome trace].
  change (set_Header _ (set_Header _ ctx)) with (inject_client_ip remoteIP ctx).
  cbn [mret M_ret emit outcome trace]. rewrite HN. cbn [outcome trace].
  unfold HTTP. rewrite Hz. reflexivity.
Qed.

(** C10.  For a request whose path is not excluded, with the logger built:
    the address derivation returns, and when the wrapped handler returns,
    the middleware then reads the clock, does the correlation work and
    submits exactly one record, the HTTP one, at zap's Info level, as the
    last thing it does.  Neither the record nor anything else the
    middleware does depends on the threshold [logLevel]: the same happens
    under every threshold [T]. *)
Theorem RequestLogger_logs_once excludes g lg ctx :
  zlogger g = Some lg ->
  EscapedPath (ginRequest ctx) ∉ excludes ->
  exists remoteIP,
    remoteIP_of (ginRequest ctx) = mkM (Ret remoteIP) []
    /\ forall ctx', Next (inject_client_ip remoteIP ctx) = Ret ctx' ->
       forall T : Level,
       let r := RequestLogger excludes (set_logLevel T g) ctx in
       let record := (InfoLevel, "request log",
                      HTTP_fields g (reqContext (ginRequest ctx')) (ginRequest ctx')
                        {| StatusCode := WriterStatus ctx' |} (FullPath ctx')
                        (clock ctx' - clock ctx)) in
       outcome r = Ret ctx'
       /\ sink_calls (trace r) = [record]
       /\ trace r = [EvNow; EvNext; EvNow; EvSpanContext; EvSpanContext;
                     EvCtxValue (keyUserID g); EvCtxValue (keyScope g);
                     EvLog record.1.1 record.1.2 record.2]
       /\ r = RequestLogger excludes g ctx.
Proof.
  intros Hz Hex. destruct (remoteIP_of_returns (ginRequest ctx)) as [ip Hip].
  exists ip. split; [exact Hip|]. intros ctx' HN T r record. subst r record.
  rewrite (RequestLogger_run excludes (set_logLevel T g) lg ctx ip ctx')
    by assumption.
  rewrite (RequestLogger_run excludes g lg ctx ip ctx') by assumption.
  repeat split.
Qed.

(** ** Further properties: the filter and the leveled functions *)

(** X5.  The filter is monotone in both arguments: a level that is emitted stays
    emitted under every higher threshold, and with it every more severe
    real level is emitted.  A threshold of [LevelDebug] or more (so also
    [LevelLast] and beyond) emits exactly the levels between the
    sentinels. *)
Theorem filtered_monotone (level level' threshold threshold' : Level) :
  (filtered level threshold = false -> (threshold <= threshold')%N ->
   filtered level threshold' = false)
  /\ (filtered level threshold = false -> (LevelFirst < level' <= level)%N ->
      filtered level' threshold = false)
  /\ ((LevelDebug <= threshold)%N ->
      (filtered level threshold = false <-> (LevelFirst < level < LevelLast)%N)).
Proof.
  rewrite !filtered_false. unfold LevelFirst, LevelDebug, LevelLast.
  repeat split; lia.
Qed.

Lemma zap_level_Fatal_iff (level : Level) :
  zap_level level = FatalLevel <-> level = LevelCritical.
Proof.
  unfold zap_level.
  destruct (N.eqb_spec level LevelInfo) as [->|_]; [split; discriminate|].
  destruct (N.eqb_spec level LevelError) as [->|_]; [split; discriminate|].
  destruct (N.eqb_spec level LevelCritical) as [->|Hne]; [split; reflexivity|].
  destruct (N.eqb_spec level LevelWarn) as [->|_]; split; try discriminate;
    intros; contradiction.
Qed.

(** X7.  Before a logger is built, a call of [zlog] at an emitted level does the
    formatting and the correlation reads and then panics on the nil
    logger: nothing reaches the Sink, and [Critical] does not exit. *)
Theorem zlog_without_logger_panics g ctx level format args kv :
  zlogger g = None ->
  (LevelFirst < level < LevelLast /\ level <= logLevel g)%N ->
  let r := zlog g ctx level format args kv in
  outcome r = Panic "invalid memory address or nil pointer dereference"
  /\ trace r = zlog_prelude g format args
  /\ sink_calls (trace r) = [] /\ sink_flushes (trace r) = 0%nat.
Proof.
  intros Hz Hc r. subst r. apply filtered_false in Hc.
  unfold zlog. rewrite Hc, Hz. repeat split.
Qed.

(** X8.  The six entry points besides [Critical], each under a threshold that
    admits its level and with the logger built: one record at the zap level
    of its name, then a normal return.  [Error], [Warn], [Info] and [Debug]
    format [format] with [args] and carry no label; [Errorw] and [Infow]
    pass [format] through [fmt.Sprintf] with no argument and carry the
    fields of [kv]. *)
Theorem entry_points g lg ctx format args kv :
  zlogger g = Some lg ->
  let run lvl a fields :=
    mkM (Ret tt) (zlog_prelude g format a ++ [EvLog lvl (Sprintf format a) fields]) in
  ((LevelError <= logLevel g)%N ->
     Error g ctx format args = run ErrorLevel args (zlog_fields g ctx [])
     /\ Errorw g ctx format kv = run ErrorLevel [] (zlog_fields g ctx kv))
  /\ ((LevelWarn <= logLevel g)%N ->
      Warn g ctx format args = run WarnLevel args (zlog_fields g ctx []))
  /\ ((LevelInfo <= logLevel g)%N ->
      Info g ctx format args = run InfoLevel args (zlog_fields g ctx [])
      /\ Infow g ctx format kv = run InfoLevel [] (zlog_fields g ctx kv))
  /\ ((LevelDebug <= logLevel g)%N ->
      Debug g ctx format args = run DebugLevel args (zlog_fields g ctx [])).
Proof.
  intros Hz run. subst run.
  unfold Error, Errorw, Warn, Info, Infow, Debug.
  repeat split; intros;
    rewrite (zlog_run g lg) by
      (try assumption; apply filtered_false;
       unfold LevelFirst, LevelError, LevelWarn, LevelInfo, LevelDebug, LevelLast in *;
       lia);
    reflexivity.
Qed.

Lemma correlate_fields_app g ctx requestID spanID fields :
  correlate_fields g ctx requestID spanID fields
  = fields ++ correlate_fields g ctx requestID spanID [].
Proof.
  unfold correlate_fields.
  destruct (negb (projectID g =? "")%string);
    destruct (ctxValues ctx !! keyUserID g ≫= as_string);
    destruct (ctxValues ctx !! keyScope g ≫= as_string);
    cbn [app]; rewrite ?app_nil_r, <- ?app_assoc; reflexivity.
Qed.

(** The correlation step only appends.  The record of [zlog] is the request
    id and the source location, then the correlation fields, then the
    labels; the record of [HTTP] is its four own fields, then the same
    correlation fields.  There are at most five of them, and without a
    project id at most two, both labels. *)
Theorem correlation_appends g ctx kv req res path latency :
  let corr := correlate_fields g ctx (TraceID ctx) (SpanID ctx) [] in
  zlog_fields g ctx kv
  = [Label (keyRequestID g) (TraceID ctx); SourceLocation (runtime_Caller 2)]
    ++ corr ++ elems (parseLabels (keyError g) kv)
  /\ HTTP_fields g ctx req res path latency
     = [zapdriver_HTTP {| payloadRequest := req; payloadResponse := res;
                          Latency := Duration_String latency |};
        Label (keyRequestID g) (TraceID ctx);
        Label (keyRemoteIP g) (Header_Get (Header req) "true-client-ip");
        Label (keyRoute g) path] ++ corr
  /\ (length corr <= 5)%nat
  /\ (projectID g = "" ->
      (length corr <= 2)%nat /\ forallb is_Label corr = true).
Proof.
  intros corr. subst corr. unfold zlog_fields, HTTP_fields.
  rewrite (correlate_fields_app g ctx _ _ [_; _]).
  rewrite (correlate_fields_app g ctx _ _ [_; _; _; _]).
  rewrite <- app_assoc. split; [reflexivity|]. split; [reflexivity|].
  unfold correlate_fields. split.
  - destruct (negb (projectID g =? "")%string);
      destruct (ctxValues ctx !! keyUserID g ≫= as_string);
      destruct (ctxValues ctx !! keyScope g ≫= as_string); cbn; lia.
  - intros ->. cbn [String.eqb negb].
    destruct (ctxValues ctx !! keyUserID g ≫= as_string);
      destruct (ctxValues ctx !! keyScope g ≫= as_string); cbn; split; (lia || reflexivity).
Qed.

(** ** Further properties: parseLabels *)

(** X10.  [parseLabels] distributes over concatenation after an even number of
    arguments: pairs are encoded one by one, in order, and an earlier pair
    never changes what a later one yields. *)
Theorem parseLabels_app keyError pre post :
  Nat.Even (length pre) ->
  elems (parseLabels keyError (pre ++ post))
  = elems (parseLabels keyError pre) ++ elems (parseLabels keyError post).
Proof.
  intros Hev. rewrite !elems_parseLabels, parseLabels_loop_app by assumption.
  apply parseLabels_loop_acc.
Qed.

(** X11.  A pair whose key is not a string yields no field, and the pairs after
    it are still encoded. *)
Theorem parseLabels_skips_non_string_key keyError pre key val post :
  Nat.Even (length pre) ->
  as_string key = None ->
  elems (parseLabels keyError (pre ++ key :: val :: post))
  = elems (parseLabels keyError pre) ++ elems (parseLabels keyError post).
Proof.
  intros Hev Hk. rewrite parseLabels_pair by assumption.
  rewrite labelPair_non_string_key by assumption. reflexivity.
Qed.

Lemma labelPair_cases keyError key val :
  labelPair keyError key val = []
  \/ exists k v, labelPair keyError key val = [Label k v]
                 /\ (k = keyError \/ key = VString k).
Proof.
  unfold labelPair. destruct key as [s| | | | | | |]; cbn [as_string]; auto.
  destruct ((s =? "error")%string || (s =? keyError)%string).
  - destruct (as_error val); eauto 6.
  - destruct val as [?|[?|]|?|[?|]|?|?|?|?]; eauto 6.
Qed.

(** X12.  [parseLabels] yields at most one field for each pair, every field is a
    label, and the key of every label is the error-key name or a string
    that stands in the arguments. *)
Theorem parseLabels_labels_only keyError args :
  (length (elems (parseLabels keyError args)) <= Nat.div2 (length args))%nat
  /\ forall f, f ∈ elems (parseLabels keyError args) ->
       exists k v, f = Label k v /\ (k = keyError \/ VString k ∈ args).
Proof.
  clear_environment.
  rewrite elems_parseLabels.
  induction args as [|x|key val rest [IHlen IHin]] using pairs_ind.
  - split; [cbn; lia|]. intros f Hf. cbn in Hf. apply elem_of_nil in Hf. contradiction.
  - split; [cbn; lia|]. intros f Hf. cbn in Hf. apply elem_of_nil in Hf. contradiction.
  - cbn [parseLabels_loop]. rewrite parseLabels_loop_acc. cbn [app].
    destruct (labelPair_cases keyError key val) as [->|(k & v & -> & Hk)].
    + cbn [app length Nat.div2]. split; [lia|].
      intros f Hf. destruct (IHin f Hf) as (k & v & -> & [->|Hin]); eauto.
      exists k, v. split; [reflexivity|]. right.
      apply list_elem_of_further, list_elem_of_further, Hin.
    + cbn [app length Nat.div2]. split; [lia|].
      intros f Hf. apply elem_of_cons in Hf as [->|Hf].
      * exists k, v. split; [reflexivity|].
        destruct Hk as [->| ->]; [left; reflexivity|].
        right. apply list_elem_of_here.
      * destruct (IHin f Hf) as (k' & v' & -> & [->|Hin]); eauto.
        exists k', v'. split; [reflexivity|]. right.
        apply list_elem_of_further, list_elem_of_further, Hin.
Qed.

(** ** Further properties: Initialize and Finalize *)

(** X13.  [Initialize] never changes the names of the remote-address and route
    labels, and with a nil configuration it changes no variable but the
    logger: the threshold, the project id and the key names stay. *)
Theorem Initialize_keeps c g :
  let g' := (Initialize c g).2 in
  keyRemoteIP g' = keyRemoteIP g /\ keyRoute g' = keyRoute g
  /\ (c = None ->
      logLevel g' = logLevel g /\ projectID g' = projectID g
      /\ keyRequestID g' = keyRequestID g /\ keyUserID g' = keyUserID g
      /\ keyError g' = keyError g /\ keyScope g' = keyScope g).
Proof.
  unfold Initialize, build. destruct c as [c|].
  - destruct (projectID (configure c g) =? "")%string;
      [|destruct (Development c)];
      match goal with |- context [build_error ?l] => destruct (build_error l) end;
      cbn; repeat split; intros; discriminate.
  - destruct (projectID g =? "")%string;
      [destruct (build_error ZapDevelopment)|]; cbn; repeat split.
Qed.

Lemma Initialize_logger_for c g :
  Initialize (Some c) g = build (logger_for c) (configure c g).
Proof.
  unfold Initialize, logger_for. cbn [configure projectID].
  destruct (ProjectID c =? "")%string; [reflexivity|].
  destruct (Development c); reflexivity.
Qed.

(** X14.  A later [Initialize] with a configuration overrides an earlier one
    entirely: the result and the variables are those of the later call
    alone. *)
Theorem Initialize_last_wins c1 c2 g :
  Initialize (Some c2) (Initialize (Some c1) g).2 = Initialize (Some c2) g.
Proof.
  rewrite !Initialize_logger_for. unfold build.
  destruct (build_error (logger_for c1));
    destruct (build_error (logger_for c2)); reflexivity.
Qed.

(** X15.  When the logger cannot be built, [Initialize] returns the error with
    the variables already replaced by the configuration and with a nil
    logger, also when an earlier call had built one.  [Finalize] then does
    nothing, and a log call at an emitted level panics without reaching
    the Sink. *)
Theorem Initialize_build_failure c g err :
  build_error (logger_for c) = Some err ->
  let r := Initialize (Some c) g in
  let g' := r.2 in
  r.1 = Ret (Some err)
  /\ g' = set_zlogger None (configure c g)
  /\ Finalize g' = mkM (Ret tt) []
  /\ forall ctx level format args kv,
       (LevelFirst < level < LevelLast /\ level <= ConfigLevel c)%N ->
       let l := zlog g' ctx level format args kv in
       outcome l = Panic "invalid memory address or nil pointer dereference"
       /\ sink_calls (trace l) = [].
Proof.
  intros Hb r g'. subst g' r. rewrite Initialize_logger_for.
  unfold build. rewrite Hb. cbn [fst snd].
  do 3 (split; [reflexivity|]).
  intros ctx level format args kv Hc.
  apply filtered_false in Hc. unfold zlog.
  cbn [set_zlogger configure logLevel zlogger]. rewrite Hc. split; reflexivity.
Qed.

(** X16.  When the logger can be built, [Initialize] returns nil and holds the
    logger chosen by the project id and, only when a project id is set,
    by the development flag; [Finalize] then flushes the Sink once. *)
Theorem Initialize_build_success c g :
  build_error (logger_for c) = None ->
  let r := Initialize (Some c) g in
  r.1 = Ret None
  /\ zlogger r.2 = Some (logger_for c)
  /\ (ProjectID c = "" -> zlogger r.2 = Some ZapDevelopment)
  /\ Finalize r.2 = mkM (Ret tt) [EvSync].
Proof.
  intros Hb r. subst r. rewrite Initialize_logger_for.
  unfold build. rewrite Hb. cbn [fst snd]. repeat split.
  intros HP. unfold logger_for. rewrite HP. reflexivity.
Qed.

(** ** Further properties: the middleware *)

Lemma Split_from_single_head c s :
  exists tl, Split_from (String c EmptyString) 0 s = take_until c s :: tl.
Proof.
  clear_environment.
  induction s as [|a rest [tl IH]].
  - cbn. eauto.
  - cbn [Split_from take_until String.prefix String.length Nat.sub].
    destruct (ascii_dec c a) as [<-|Hne].
    + rewrite Ascii.eqb_refl. destruct rest; cbn; eauto.
    + rewrite IH. cbn [cons_head].
      assert (Hab : Ascii.eqb a c = false)
        by (apply Ascii.eqb_neq; congruence).
      rewrite Hab. eauto.
Qed.

Lemma index0_Split_single c s :
  index0 (strings_Split s (String c EmptyString)) = mkM (Ret (take_until c s)) [].
Proof.
  cbn [strings_Split]. destruct (Split_from_single_head c s) as [tl ->].
  reflexivity.
Qed.

(** X17.  The derived client address, in closed form: the text of the first
    [X-Forwarded-For] value before its first comma, or, when that text is
    empty, the text of the remote address before its first colon.  The
    derivation always returns and calls no collaborator. *)
Theorem remoteIP_of_value req :
  let first := take_until "," (Header_Get (Header req) "X-Forwarded-For") in
  remoteIP_of req
  = mkM (Ret (if (first =? "")%string then take_until ":" (RemoteAddr req)
              else first)) [].
Proof.
  intros first. subst first. unfold remoteIP_of.
  pose proof (index0_Split_single ":" (RemoteAddr req)) as Hc.
  destruct (Split_from_single_head "," (Header_Get (Header req) "X-Forwarded-For"))
    as [tl Hs].
  change (strings_Split (Header_Get (Header req) "X-Forwarded-For") ",")
    with (Split_from "," 0 (Header_Get (Header req) "X-Forwarded-For")).
  rewrite Hs.
  destruct (take_until "," (Header_Get (Header req) "X-Forwarded-For") =? "")%string;
    cbn [negb]; [exact Hc|reflexivity].
Qed.

Lemma Header_Get_inject remoteIP ctx :
  Header_Get (Header (ginRequest (inject_client_ip remoteIP ctx))) "true-client-ip"
  = match Header (ginRequest ctx) !! "True-Client-Ip" with
    | Some (v :: _) => v
    | _ => remoteIP
    end.
Proof.
  unfold Header_Get. cbn [inject_client_ip set_Header ginRequest Header].
  unfold Header_Add.
  change (CanonicalMIMEHeaderKey "x-forwarded-for") with "X-Forwarded-For".
  change (CanonicalMIMEHeaderKey "true-client-ip") with "True-Client-Ip".
  rewrite lookup_insert_eq. rewrite lookup_insert_ne by discriminate.
  destruct (Header (ginRequest ctx) !! "True-Client-Ip") as [[|v l]|]; reflexivity.
Qed.

(** X18.  The remote-address label of the access log is read back from the first
    [True-Client-Ip] value of the request.  The middleware appends the
    derived address, so when the request came in with a [True-Client-Ip]
    value of its own and the handler leaves the headers alone, the label
    holds that incoming value; it holds the derived address only when the
    request had none. *)
Theorem access_log_remote_ip excludes g lg ctx remoteIP ctx' :
  zlogger g = Some lg ->
  EscapedPath (ginRequest ctx) ∉ excludes ->
  remoteIP_of (ginRequest ctx) = mkM (Ret remoteIP) [] ->
  Next (inject_client_ip remoteIP ctx) = Ret ctx' ->
  Header (ginRequest ctx') = Header (ginRequest (inject_client_ip remoteIP ctx)) ->
  exists fields,
    sink_calls (trace (RequestLogger excludes g ctx))
    = [(InfoLevel, "request log", fields)]
    /\ fields !! 2%nat
       = Some (Label (keyRemoteIP g)
                 match Header (ginRequest ctx) !! "True-Client-Ip" with
                 | Some (v :: _) => v
                 | _ => remoteIP
                 end).
Proof.
  intros Hz Hex Hip HN HH.
  rewrite (RequestLogger_run excludes g lg ctx remoteIP ctx') by assumption.
  eexists. split; [reflexivity|].
  unfold HTTP_fields. rewrite correlate_fields_app. cbn [app lookup list_lookup].
  rewrite HH, Header_Get_inject. reflexivity.
Qed.

(** X19.  When the wrapped handler panics or ends the process, the middleware
    ends the same way right after [ctx.Next]: no access log is written for
    the request. *)
Theorem RequestLogger_handler_aborts excludes g ctx remoteIP :
  EscapedPath (ginRequest ctx) ∉ excludes ->
  remoteIP_of (ginRequest ctx) = mkM (Ret remoteIP) [] ->
  (forall ctx', Next (inject_client_ip remoteIP ctx) <> Ret ctx') ->
  let r := RequestLogger excludes g ctx in
  outcome r = Next (inject_client_ip remoteIP ctx)
  /\ trace r = [EvNow; EvNext]
  /\ sink_calls (trace r) = [].
Proof.
  intros Hex Hip HN r. subst r. unfold RequestLogger.
  rewrite build_excludes_miss by assumption. rewrite Hip.
  unfold mbind, M_bind. cbn [outcome trace].
  change (set_Header _ (set_Header _ ctx)) with (inject_client_ip remoteIP ctx).
  cbn [mret M_ret emit outcome trace].
  destruct (Next (inject_client_ip remoteIP ctx)) as [c| |] eqn:E.
  - exfalso. exact (HN c eq_refl).
  - repeat split.
  - repeat split.
Qed.

(** X20.  Before a logger is built, the middleware still runs the wrapped handler
    for a path that is not excluded, and panics afterwards, in [HTTP], on
    the nil logger: the request is served but the call does not return
    and nothing reaches the Sink. *)
Theorem RequestLogger_without_logger excludes g ctx remoteIP ctx' :
  zlogger g = None ->
  EscapedPath (ginRequest ctx) ∉ excludes ->
  remoteIP_of (ginRequest ctx) = mkM (Ret remoteIP) [] ->
  Next (inject_client_ip remoteIP ctx) = Ret ctx' ->
  let r := RequestLogger excludes g ctx in
  outcome r = Panic "invalid memory address or nil pointer dereference"
  /\ trace r = [EvNow; EvNext; EvNow; EvSpanContext; EvSpanContext;
                EvCtxValue (keyUserID g); EvCtxValue (keyScope g)]
  /\ sink_calls (trace r) = [].
Proof.
  intros Hz Hex Hip HN r. subst r. unfold RequestLogger.
  rewrite build_excludes_miss by assumption. rewrite Hip.
  unfold mbind, M_bind. cbn [outcome trace].
  change (set_Header _ (set_Header _ ctx)) with (inject_client_ip remoteIP ctx).
  cbn [mret M_ret emit outcome trace]. rewrite HN. cbn [outcome trace].
  unfold HTTP. rewrite Hz. repeat split.
Qed.

(** X21.  The handler depends on the exclusion list only through its members:
    two lists with the same members, in any order and with any
    repetitions, give handlers that behave alike on every request. *)
Theorem RequestLogger_excludes_as_set excludes1 excludes2 g ctx :
  (forall s : string, s ∈ excludes1 <-> s ∈ excludes2) ->
  RequestLogger excludes1 g ctx = RequestLogger excludes2 g ctx.
Proof.
  intros Hsame. unfold RequestLogger.
  destruct (decide (EscapedPath (ginRequest ctx) ∈ excludes1)) as [Hin|Hout].
  - pose proof (proj1 (Hsame _) Hin) as Hin2.
    apply build_excludes_lookup in Hin, Hin2. rewrite Hin, Hin2. reflexivity.
  - assert (Hout2 : EscapedPath (ginRequest ctx) ∉ excludes2)
      by (intros H; apply Hout, Hsame, H).
    rewrite !build_excludes_miss by assumption. reflexivity.
Qed.

(** ** The middleware under gin's dispatcher *)

(** C9, amended.  For a request whose escaped path is a member of
    [excludes], the middleware returns at once with the context unchanged:
    it rewrites no header, reads no clock, submits nothing to the Sink and
    does not call [ctx.Next].  It does not abort the chain either, so gin's
    dispatcher goes on to the remaining handlers: the wrapped handler is
    invoked, by the dispatcher, on the context as the request came in. *)
Theorem excluded_path_served_unlogged excludes g ctx :
  EscapedPath (ginRequest ctx) ∈ excludes ->
  let s := gin_serve (RequestLogger excludes g) ctx in
  middleware_run s = mkM (Ret ctx) []
  /\ called_Next (trace (middleware_run s)) = false
  /\ sink_calls (trace (middleware_run s)) = []
  /\ dispatched s = Some (Next ctx).
Proof.
  intros Hin s. subst s. unfold gin_serve, RequestLogger.
  apply build_excludes_lookup in Hin. rewrite Hin. repeat split.
Qed.

(** ** Further properties: what zlog and HTTP hand to the logger *)

(** X6.  With the logger built, [zlog] hands a record to zap's Fatal method
    exactly when the level is [LevelCritical] and the threshold admits it;
    the record of every other admitted level goes to another method. *)
Theorem zlog_Fatal_only_for_Critical g lg ctx level format args kv :
  zlogger g = Some lg ->
  let r := zlog g ctx level format args kv in
  (exists msg fields, sink_calls (trace r) = [(FatalLevel, msg, fields)])
  <-> level = LevelCritical /\ (LevelCritical <= logLevel g)%N.
Proof.
  intros Hz r. subst r. split.
  - intros (msg & fields & H).
    destruct (filtered level (logLevel g)) eqn:Hf.
    + rewrite zlog_skip in H by assumption. discriminate H.
    + rewrite (zlog_run_calls g lg) in H by assumption.
      injection H as Hl _ _. apply zap_level_Fatal_iff in Hl. subst level.
      split; [reflexivity|]. apply filtered_Critical, Hf.
  - intros [-> Hle]. apply filtered_Critical in Hle.
    rewrite (zlog_run_calls g lg) by assumption. rewrite zap_level_Critical.
    eauto.
Qed.

Lemma HTTP_run g lg ctx req res path latency :
  zlogger g = Some lg ->
  HTTP g ctx req res path latency
  = mkM (Ret tt)
      [EvSpanContext; EvSpanContext;
       EvCtxValue (keyUserID g); EvCtxValue (keyScope g);
       EvLog InfoLevel "request log" (HTTP_fields g ctx req res path latency)].
Proof. intros Hz. unfold HTTP. rewrite Hz. reflexivity. Qed.

(** X9.  The records [zlog] and [HTTP] submit, field by field.  [zlog], at
    an admitted level with the logger built, submits the request-id label
    and the source location, then the correlation fields, then the labels
    of [kv]; [HTTP] submits its four own fields, then the same correlation
    fields.  The correlation fields are the three trace fields when a
    project id is set, the user-id label when the context holds a string
    under [keyUserID], and the scope label likewise: at most five, and
    without a project id at most two, both labels. *)
Theorem correlation_in_records g lg ctx level format args kv req res path latency :
  zlogger g = Some lg ->
  (LevelFirst < level < LevelLast /\ level <= logLevel g)%N ->
  let corr :=
    (if negb (projectID g =? "")%string
     then TraceContext (TraceID ctx) (SpanID ctx) true (projectID g)
     else [])
    ++ match ctxValues ctx !! keyUserID g ≫= as_string with
       | Some userID => [Label (keyUserID g) userID]
       | None => []
       end
    ++ match ctxValues ctx !! keyScope g ≫= as_string with
       | Some scope => [Label (keyScope g) scope]
       | None => []
       end in
  sink_calls (trace (zlog g ctx level format args kv))
  = [(zap_level level, Sprintf format args,
      [Label (keyRequestID g) (TraceID ctx); SourceLocation (runtime_Caller 2)]
      ++ corr ++ elems (parseLabels (keyError g) kv))]
  /\ sink_calls (trace (HTTP g ctx req res path latency))
     = [(InfoLevel, "request log",
         [zapdriver_HTTP {| payloadRequest := req; payloadResponse := res;
                            Latency := Duration_String latency |};
          Label (keyRequestID g) (TraceID ctx);
          Label (keyRemoteIP g) (Header_Get (Header req) "true-client-ip");
          Label (keyRoute g) path] ++ corr)]
  /\ (length corr <= 5)%nat
  /\ (projectID g = "" -> (length corr <= 2)%nat /\ forallb is_Label corr = true).
Proof.
  intros Hz Hc corr. apply filtered_false in Hc.
  assert (Hcorr : correlate_fields g ctx (TraceID ctx) (SpanID ctx) [] = corr).
  { subst corr. unfold correlate_fields.
    destruct (negb (projectID g =? "")%string);
      destruct (ctxValues ctx !! keyUserID g ≫= as_string);
      destruct (ctxValues ctx !! keyScope g ≫= as_string);
      cbn [app]; rewrite <- ?app_assoc; reflexivity. }
  destruct (correlation_appends g ctx kv req res path latency)
    as (Hzl & Hhttp & Hlen & Hno).
  cbv zeta in Hzl, Hhttp, Hlen, Hno. rewrite Hcorr in Hzl, Hhttp, Hlen, Hno.
  rewrite (zlog_run_calls g lg) by assumption. rewrite Hzl.
  rewrite (HTTP_run g lg) by assumption. cbn [trace].
  change (sink_calls [EvSpanContext; EvSpanContext; EvCtxValue (keyUserID g);
                      EvCtxValue (keyScope g);
                      EvLog InfoLevel "request log"
                        (HTTP_fields g ctx req res path latency)])
    with [(InfoLevel, "request log", HTTP_fields g ctx req res path latency)].
  rewrite Hhttp. repeat split; try assumption; apply Hno; assumption.
Qed.

End Pipeline.

(** ** Concrete runs *)

Example parseLabels_int32 :
  parseLabels "err" [VString "n"; VInt32 42] = MkSlice [Label "n" "42"].
Proof. vm_compute. reflexivity. Qed.

Example parseLabels_error_pairs :
  parseLabels "err"
    [VString "error"; VOther (OOpaque (Some "boom") "boom");
     VString "error"; VString "not-an-error";
     VInt 7; VString "skipped"; VString "dangling"]
  = MkSlice [Label "err" "boom"].
Proof. vm_compute. reflexivity. Qed.

(** A nil slice for no argument, an empty one for a single argument. *)
Example parseLabels_nil_and_empty :
  parseLabels "err" [] = NilSlice /\ parseLabels "err" [VString "k"] = MkSlice [].
Proof. split; reflexivity. Qed.

(** On a target whose [int] has 32 bits the conversion [int(v)] of an
    [int64] would wrap. *)
Example wrap_32_of_int64 : wrap 32 (2 ^ 32 + 7) = 7.
Proof. reflexivity. Qed.

Example forwarded_for_first_component :
  remoteIP_of (ginRequest (fixture_gin "/api")) = mkM (Ret "1.2.3.4") [].
Proof. vm_compute. reflexivity. Qed.

Example remote_address_fallback :
  remoteIP_of {| Method := "GET"; EscapedPath := "/"; Header := ∅;
                 RemoteAddr := "9.9.9.9:443"; reqContext := fixture_ctx |}
  = mkM (Ret "9.9.9.9") [].
Proof. vm_compute. reflexivity. Qed.

Example Initialize_nil_config :
  Initialize fixture_build None initial = (Ret None, ready).
Proof. reflexivity. Qed.

Lemma zlog_emits_iff_witness :
  zlogger ready = Some ZapDevelopment
  /\ length (sink_calls (trace (zlog fixture_Sprintf fixture_Caller ready
                                  fixture_ctx LevelWarn "disk almost full" [] [])))
     = 1%nat.
Proof.
  split; [reflexivity|].
  destruct (zlog_emits_iff fixture_Sprintf fixture_Caller ready ZapDevelopment
              fixture_ctx LevelWarn "disk almost full" [] [] eq_refl)
    as [[_ H] _].
  apply H. change ((0 < 3 < 6)%N /\ (3 <= 5)%N). lia.
Defined.

Lemma zlog_filtered_does_nothing_witness :
  trace (zlog fixture_Sprintf fixture_Caller (set_logLevel LevelInfo ready)
           fixture_ctx LevelDebug "cache miss" [] []) = [].
Proof.
  apply (zlog_filtered_does_nothing fixture_Sprintf fixture_Caller
           (set_logLevel LevelInfo ready) fixture_ctx LevelDebug "cache miss" [] []).
  change (~ ((0 < 5 < 6)%N /\ (5 <= 4)%N)). lia.
Defined.

(** C2 as stated fails: under the threshold [LevelFirst], with the logger
    built, [Critical] returns normally, submits nothing and flushes
    nothing. *)
Lemma Critical_silent_under_LevelFirst :
  let g := set_logLevel LevelFirst ready in
  let r := Critical fixture_Sprintf fixture_Caller g fixture_ctx "boom" [] in
  zlogger g = Some ZapDevelopment
  /\ outcome r = Ret tt
  /\ sink_calls (trace r) = []
  /\ sink_flushes (trace r) = 0%nat.
Proof. repeat split. Qed.

Lemma Critical_fatal_when_enabled_witness :
  let r := Critical fixture_Sprintf fixture_Caller ready fixture_ctx "boom" [] in
  zlogger ready = Some ZapDevelopment
  /\ (LevelCritical <= logLevel ready)%N
  /\ sink_flushes (trace r) = 1%nat
  /\ outcome r = Exit 1.
Proof.
  assert (Hle : (LevelCritical <= logLevel ready)%N)
    by (change (1 <= 5)%N; lia).
  destruct (Critical_fatal_when_enabled fixture_Sprintf fixture_Caller ready
              ZapDevelopment fixture_ctx "boom" [] eq_refl) as [H _].
  destruct (H Hle) as (_ & _ & Hflush & Hout).
  repeat split; assumption.
Defined.

Lemma parseLabels_odd_drops_last_witness :
  Nat.Even (length [VString "a"; VInt 1])
  /\ elems (parseLabels "err" ([VString "a"; VInt 1] ++ [VString "dangling"]))
     = elems (parseLabels "err" [VString "a"; VInt 1]).
Proof.
  assert (Hev : Nat.Even (length [VString "a"; VInt 1]))
    by (exists 1%nat; reflexivity).
  split; [exact Hev|].
  apply (parseLabels_odd_drops_last "err" [VString "a"; VInt 1]
           (VString "dangling") Hev).
Defined.

Lemma parseLabels_error_key_witness :
  elems (parseLabels "err"
           ([] ++ VString "error" :: VOther (OOpaque (Some "boom") "{boom}") :: []))
  = elems (parseLabels "err" []) ++ [Label "err" "boom"]
    ++ elems (parseLabels "err" []).
Proof.
  apply (parseLabels_error_key "err" [] "error"
           (VOther (OOpaque (Some "boom") "{boom}")) []).
  - exists 0%nat. reflexivity.
  - left. reflexivity.
Defined.

(** C6 as stated fails: a nil pointer to a byte sequence is an optional
    string no more than a byte sequence or an integer, so by the claim it
    is rendered as a dump; [parseLabels] emits no field for it. *)
Lemma nil_bytes_pointer_is_dropped :
  elems (parseLabels "err" [VString "k"; VBytesPtr None]) = []
  /\ ~ encodes_as_claimed "k" (VBytesPtr None)
         (elems (parseLabels "err" [VString "k"; VBytesPtr None])).
Proof.
  split; [reflexivity|]. intros [dump H]. discriminate H.
Qed.

Lemma parseLabels_other_key_witness :
  wf_value (VInt32 42)
  /\ elems (parseLabels "err" ([] ++ VString "n" :: VInt32 42 :: []))
     = elems (parseLabels "err" []) ++ [Label "n" "42"]
       ++ elems (parseLabels "err" []).
Proof.
  assert (Hwf : wf_value (VInt32 42)) by (unfold wf_value, in_range; lia).
  split; [exact Hwf|].
  apply (parseLabels_other_key "err" [] "n" (VInt32 42) []).
  - exists 0%nat. reflexivity.
  - discriminate.
  - discriminate.
  - exact Hwf.
Defined.

(** C8 fails on the code.  For a request over IPv6 without
    [X-Forwarded-For], whose remote address is [[::1]:8080], the middleware
    derives ["["]; the remote address with its port stripped is [[::1]]. *)
Theorem remoteIP_of_ipv6_request :
  remoteIP_of ipv6_request = mkM (Ret "[") []
  /\ strip_port (RemoteAddr ipv6_request) = "[::1]"
  /\ strings_Split (RemoteAddr ipv6_request) ":" = ["["; ""; "1]"; "8080"].
Proof. repeat split. Qed.

Lemma RequestLogger_excluded_witness :
  let r := RequestLogger fixture_Duration fixture_Next ["/healthz"; "/metrics"]
             ready (fixture_gin "/metrics") in
  outcome r = Ret (fixture_gin "/metrics") /\ trace r = ([] : list Event).
Proof.
  assert (Hin : EscapedPath (ginRequest (fixture_gin "/metrics"))
                ∈ ["/healthz"; "/metrics"]).
  { cbn. apply list_elem_of_further, list_elem_of_here. }
  destruct (RequestLogger_excluded fixture_Duration fixture_Next
              ["/healthz"; "/metrics"] ready (fixture_gin "/metrics") Hin)
    as (Hout & Htr & _).
  split; assumption.
Defined.

Lemma RequestLogger_logs_once_witness :
  exists ctx',
    fixture_Next (inject_client_ip "1.2.3.4" (fixture_gin "/api")) = Ret ctx'
    /\ forall T : Level,
       let r := RequestLogger fixture_Duration fixture_Next ["/healthz"]
                  (set_logLevel T ready) (fixture_gin "/api") in
       outcome r = Ret ctx' /\ length (sink_calls (trace r)) = 1%nat.
Proof.
  assert (Hex : EscapedPath (ginRequest (fixture_gin "/api")) ∉ ["/healthz"]).
  { cbn. intros Hin. apply list_elem_of_singleton in Hin. discriminate Hin. }
  destruct (RequestLogger_logs_once fixture_Duration fixture_Next ["/healthz"]
              ready ZapDevelopment (fixture_gin "/api") eq_refl Hex)
    as (ip & Hip & H).
  assert (Heq : ip = "1.2.3.4").
  { rewrite forwarded_for_first_component in Hip. injection Hip as <-. reflexivity. }
  subst ip. eexists. split; [reflexivity|].
  intros T r. subst r.
  destruct (H _ eq_refl T) as (Hout & Hcalls & _).
  split; [exact Hout|]. rewrite Hcalls. reflexivity.
Defined.

Lemma remoteIP_of_forwarded_witness :
  remoteIP_of (ginRequest (fixture_gin "/api")) = mkM (Ret "1.2.3.4") [].
Proof.
  apply (remoteIP_of_forwarded (ginRequest (fixture_gin "/api")) "1.2.3.4"
           [" 5.6.7.8"]).
  - reflexivity.
  - discriminate.
Defined.

Lemma remoteIP_of_host_port_witness :
  remoteIP_of {| Method := "GET"; EscapedPath := "/"; Header := ∅;
                 RemoteAddr := "9.9.9.9:443"; reqContext := fixture_ctx |}
  = mkM (Ret "9.9.9.9") [].
Proof.
  apply (remoteIP_of_host_port _ "9.9.9.9" "443"); reflexivity.
Defined.

Lemma Initialize_nil_panics_witness :
  let g := configure {| ProjectID := "my-project"; ConfigLevel := LevelInfo;
                        Development := false; KeyRequestID := "request_id";
                        KeyUserID := "user_id"; KeyError := "err";
                        KeyScope := "scope" |} ready in
  (Initialize fixture_build None g).1
  = Panic "invalid memory address or nil pointer dereference".
Proof.
  intros g.
  rewrite (Initialize_nil_panics fixture_build g) by discriminate.
  reflexivity.
Defined.

Lemma zlog_without_logger_panics_witness :
  zlogger initial = None
  /\ outcome (zlog fixture_Sprintf fixture_Caller initial fixture_ctx LevelInfo
                "started" [] [])
     = Panic "invalid memory address or nil pointer dereference".
Proof.
  split; [reflexivity|].
  apply (zlog_without_logger_panics fixture_Sprintf fixture_Caller initial
           fixture_ctx LevelInfo "started" [] [] eq_refl).
  change ((0 < 4 < 6)%N /\ (4 <= 5)%N). lia.
Defined.

Lemma entry_points_witness :
  zlogger ready = Some ZapDevelopment
  /\ (LevelWarn <= logLevel ready)%N
  /\ sink_calls (trace (Warn fixture_Sprintf fixture_Caller ready fixture_ctx
                          "disk almost full" []))
     = [(WarnLevel, "disk almost full",
         zlog_fields fixture_Caller ready fixture_ctx [])].
Proof.
  assert (Hle : (LevelWarn <= logLevel ready)%N) by (change (3 <= 5)%N; lia).
  split; [reflexivity|]. split; [exact Hle|].
  destruct (entry_points fixture_Sprintf fixture_Caller ready ZapDevelopment
              fixture_ctx "disk almost full" [] [] eq_refl)
    as (_ & HW & _).
  rewrite (HW Hle). reflexivity.
Defined.

Lemma parseLabels_app_witness :
  elems (parseLabels "err" ([VString "a"; VInt 1] ++ [VString "b"; VString "x"]))
  = elems (parseLabels "err" [VString "a"; VInt 1])
    ++ elems (parseLabels "err" [VString "b"; VString "x"]).
Proof.
  apply (parseLabels_app "err" [VString "a"; VInt 1] [VString "b"; VString "x"]).
  exists 1%nat. reflexivity.
Defined.

Lemma parseLabels_skips_non_string_key_witness :
  elems (parseLabels "err" ([] ++ VInt 7 :: VString "lost" :: [VString "b"; VString "x"]))
  = elems (parseLabels "err" []) ++ elems (parseLabels "err" [VString "b"; VString "x"]).
Proof.
  apply (parseLabels_skips_non_string_key "err" [] (VInt 7) (VString "lost")
           [VString "b"; VString "x"]).
  - exists 0%nat. reflexivity.
  - reflexivity.
Defined.

Lemma Initialize_build_failure_witness :
  let c := {| ProjectID := "my-project"; ConfigLevel := LevelInfo;
              Development := false; KeyRequestID := "request_id";
              KeyUserID := "user_id"; KeyError := "err"; KeyScope := "scope" |} in
  let r := Initialize fixture_build_fails (Some c) ready in
  r.1 = Ret (Some "cannot build the logger") /\ zlogger r.2 = None.
Proof.
  intros c r. subst r.
  destruct (Initialize_build_failure fixture_build_fails fixture_Sprintf
              fixture_Caller c ready "cannot build the logger" eq_refl)
    as (H1 & H2 & _).
  split; [exact H1|]. rewrite H2. reflexivity.
Defined.

Lemma Initialize_build_success_witness :
  let c := {| ProjectID := ""; ConfigLevel := LevelInfo;
              Development := false; KeyRequestID := "request_id";
              KeyUserID := "user_id"; KeyError := "err"; KeyScope := "scope" |} in
  let r := Initialize fixture_build (Some c) initial in
  r.1 = Ret None /\ zlogger r.2 = Some ZapDevelopment.
Proof.
  intros c r. subst r.
  destruct (Initialize_build_success fixture_build c initial eq_refl)
    as (H1 & _ & H3 & _).
  split; [exact H1|]. apply H3. reflexivity.
Defined.

Lemma access_log_remote_ip_witness :
  exists fields,
    sink_calls (trace (RequestLogger fixture_Duration fixture_Next ["/healthz"]
                         ready fixture_gin_spoofed))
    = [(InfoLevel, "request log", fields)]
    /\ fields !! 2%nat = Some (Label "remote_ip" "6.6.6.6").
Proof.
  assert (Hex : EscapedPath (ginRequest fixture_gin_spoofed) ∉ ["/healthz"]).
  { cbn. intros Hin. apply list_elem_of_singleton in Hin. discriminate Hin. }
  exact (access_log_remote_ip fixture_Duration fixture_Next ["/healthz"] ready
           ZapDevelopment fixture_gin_spoofed "9.9.9.9"
           (inject_client_ip "9.9.9.9"
              {| ginRequest := ginRequest fixture_gin_spoofed;
                 WriterStatus := 200;
                 FullPath := FullPath fixture_gin_spoofed;
                 clock := clock fixture_gin_spoofed + 250 |})
           eq_refl Hex eq_refl eq_refl eq_refl).
Defined.

Lemma RequestLogger_handler_aborts_witness :
  let r := RequestLogger fixture_Duration fixture_Next_panics ["/healthz"]
             ready (fixture_gin "/api") in
  outcome r = Panic "handler failed" /\ sink_calls (trace r) = [].
Proof.
  assert (Hex : EscapedPath (ginRequest (fixture_gin "/api")) ∉ ["/healthz"]).
  { cbn. intros Hin. apply list_elem_of_singleton in Hin. discriminate Hin. }
  intros r. subst r.
  destruct (RequestLogger_handler_aborts fixture_Duration fixture_Next_panics
              ["/healthz"] ready (fixture_gin "/api") "1.2.3.4" Hex eq_refl)
    as (H1 & _ & H3).
  - intros ctx'. discriminate.
  - split; [exact H1|exact H3].
Defined.

Lemma RequestLogger_without_logger_witness :
  let r := RequestLogger fixture_Duration fixture_Next ["/healthz"]
             initial (fixture_gin "/api") in
  outcome r = Panic "invalid memory address or nil pointer dereference"
  /\ sink_calls (trace r) = [].
Proof.
  assert (Hex : EscapedPath (ginRequest (fixture_gin "/api")) ∉ ["/healthz"]).
  { cbn. intros Hin. apply list_elem_of_singleton in Hin. discriminate Hin. }
  intros r. subst r.
  destruct (RequestLogger_without_logger fixture_Duration fixture_Next
              ["/healthz"] initial (fixture_gin "/api") "1.2.3.4" _
              eq_refl Hex eq_refl eq_refl)
    as (H1 & _ & H3).
  split; [exact H1|exact H3].
Defined.

Lemma RequestLogger_excludes_as_set_witness :
  RequestLogger fixture_Duration fixture_Next ["/healthz"; "/metrics"; "/healthz"]
    ready (fixture_gin "/api")
  = RequestLogger fixture_Duration fixture_Next ["/metrics"; "/healthz"]
      ready (fixture_gin "/api").
Proof.
  apply (RequestLogger_excludes_as_set fixture_Duration fixture_Next
           ["/healthz"; "/metrics"; "/healthz"] ["/metrics"; "/healthz"]).
  intros s. rewrite !elem_of_cons, !elem_of_nil. tauto.
Defined.

(** ** The headers the wrapped handler sees *)

(** X3.  For a path that is not excluded, the middleware calls the wrapped
    handler on one context [ctx1], the same whatever the handler is (a
    handler that returns its argument returns [ctx1]): in it the derived
    address is appended as the last value under [X-Forwarded-For] and under
    [True-Client-Ip], after the values the request came in with, and every
    other header is as it came in. *)
Theorem RequestLogger_appends_client_ip (Duration_String : Z -> string)
    excludes g lg ctx remoteIP :
  zlogger g = Some lg ->
  EscapedPath (ginRequest ctx) ∉ excludes ->
  remoteIP_of (ginRequest ctx) = mkM (Ret remoteIP) [] ->
  let h := Header (ginRequest ctx) in
  exists ctx1,
    outcome (RequestLogger Duration_String (fun c => Ret c) excludes g ctx)
    = Ret ctx1
    /\ (forall Next ctx', Next ctx1 = Ret ctx' ->
        outcome (RequestLogger Duration_String Next excludes g ctx) = Ret ctx')
    /\ Header (ginRequest ctx1) !! "X-Forwarded-For"
       = Some (default [] (h !! "X-Forwarded-For") ++ [remoteIP])
    /\ Header (ginRequest ctx1) !! "True-Client-Ip"
       = Some (default [] (h !! "True-Client-Ip") ++ [remoteIP])
    /\ (forall k, k <> "X-Forwarded-For" -> k <> "True-Client-Ip" ->
        Header (ginRequest ctx1) !! k = h !! k).
Proof.
  intros Hz Hex Hip h. subst h. exists (inject_client_ip remoteIP ctx).
  destruct (inject_client_ip_headers remoteIP ctx) as [HX HT].
  split; [|split; [|split; [exact HX|split; [exact HT|]]]].
  - rewrite (RequestLogger_run Duration_String (fun c => Ret c) excludes g lg
               ctx remoteIP (inject_client_ip remoteIP ctx)) by auto.
    reflexivity.
  - intros Next ctx' HN.
    rewrite (RequestLogger_run Duration_String Next excludes g lg ctx remoteIP
               ctx') by assumption.
    reflexivity.
  - intros k H1 H2. cbn [inject_client_ip set_Header ginRequest Header].
    unfold Header_Add.
    change (CanonicalMIMEHeaderKey "x-forwarded-for") with "X-Forwarded-For".
    change (CanonicalMIMEHeaderKey "true-client-ip") with "True-Client-Ip".
    rewrite !lookup_insert_ne by congruence. reflexivity.
Qed.

Lemma RequestLogger_appends_client_ip_witness :
  exists ctx1,
    outcome (RequestLogger fixture_Duration (fun c => Ret c) ["/healthz"] ready
               (fixture_gin "/api")) = Ret ctx1
    /\ Header (ginRequest ctx1) !! "X-Forwarded-For"
       = Some ["1.2.3.4, 5.6.7.8"; "1.2.3.4"]
    /\ Header (ginRequest ctx1) !! "True-Client-Ip" = Some ["1.2.3.4"].
Proof.
  assert (Hex : EscapedPath (ginRequest (fixture_gin "/api")) ∉ ["/healthz"]).
  { cbn. intros Hin. apply list_elem_of_singleton in Hin. discriminate Hin. }
  destruct (RequestLogger_appends_client_ip fixture_Duration ["/healthz"] ready
              ZapDevelopment (fixture_gin "/api") "1.2.3.4" eq_refl Hex eq_refl)
    as (ctx1 & H1 & _ & HX & HT & _).
  exists ctx1. split; [exact H1|]. split; [exact HX|exact HT].
Defined.

(** C9 as stated fails: for the excluded path [/metrics], gin's dispatcher
    runs the wrapped handler after the middleware returned, and the
    handler answers 200. *)
Lemma excluded_path_reaches_handler :
  let s := gin_serve fixture_Next
             (RequestLogger fixture_Duration fixture_Next ["/healthz"; "/metrics"]
                ready)
             (fixture_gin "/metrics") in
  EscapedPath (ginRequest (fixture_gin "/metrics")) ∈ ["/healthz"; "/metrics"]
  /\ dispatched s = Some (fixture_Next (fixture_gin "/metrics"))
  /\ (exists ctx', dispatched s = Some (Ret ctx') /\ WriterStatus ctx' = 200)
  /\ dispatched s <> None.
Proof.
  split; [cbn; apply list_elem_of_further, list_elem_of_here|].
  split; [reflexivity|]. split; [eexists; split; reflexivity|discriminate].
Qed.

Lemma excluded_path_served_unlogged_witness :
  let s := gin_serve fixture_Next
             (RequestLogger fixture_Duration fixture_Next ["/healthz"; "/metrics"]
                ready)
             (fixture_gin "/metrics") in
  middleware_run s = mkM (Ret (fixture_gin "/metrics")) []
  /\ dispatched s = Some (fixture_Next (fixture_gin "/metrics")).
Proof.
  assert (Hin : EscapedPath (ginRequest (fixture_gin "/metrics"))
                ∈ ["/healthz"; "/metrics"]).
  { cbn. apply list_elem_of_further, list_elem_of_here. }
  destruct (excluded_path_served_unlogged fixture_Duration fixture_Next
              ["/healthz"; "/metrics"] ready (fixture_gin "/metrics") Hin)
    as (Hrun & _ & _ & Hd).
  split; [exact Hrun|exact Hd].
Defined.

Lemma zlog_Fatal_only_for_Critical_witness :
  zlogger ready = Some ZapDevelopment
  /\ exists msg fields,
       sink_calls (trace (zlog fixture_Sprintf fixture_Caller ready fixture_ctx
                            LevelCritical "boom" [] []))
       = [(FatalLevel, msg, fields)].
Proof.
  split; [reflexivity|].
  apply (zlog_Fatal_only_for_Critical fixture_Sprintf fixture_Caller ready
           ZapDevelopment fixture_ctx LevelCritical "boom" [] [] eq_refl).
  split; [reflexivity|]. change (1 <= 5)%N. lia.
Defined.

Lemma correlation_in_records_witness :
  sink_calls (trace (zlog fixture_Sprintf fixture_Caller ready fixture_ctx
                       LevelInfo "user created" [] [VString "plan"; VString "free"]))
  = [(InfoLevel, "user created",
      [Label "request_id" "4bf92f3577b34da6a3ce929d0e0e4736";
       SourceLocation (fixture_Caller 2);
       Label "user_id" "u1";
       Label "plan" "free"])].
Proof.
  assert (Hc : (LevelFirst < LevelInfo < LevelLast /\ LevelInfo <= logLevel ready)%N)
    by (change ((0 < 4 < 6)%N /\ (4 <= 5)%N); lia).
  destruct (correlation_in_records fixture_Sprintf fixture_Caller
              fixture_Duration ready ZapDevelopment fixture_ctx LevelInfo
              "user created" [] [VString "plan"; VString "free"]
              (ginRequest (fixture_gin "/api")) {| StatusCode := 200 |} "/api" 250
              eq_refl Hc) as (H & _).
  rewrite H. reflexivity.
Defined.
